(** * Chaos Kakeibo API: a shallow embedding of [app/main.py]

    The request handlers of the ledger service are embedded as functions on
    an explicit world (the global list [DATA] and the supply of uuids).
    A handler returns a value or raises; what it did to [DATA] before it
    raised stays done, exactly as with the Python global. *)

From Stdlib Require Import ZArith PrimFloat FloatOps SpecFloat.
From stdpp Require Import gmap strings list pretty sorting.

Local Open Scope Z_scope.

(** ** Python values *)

#[local] Set Warnings "-register-all".

(** The values a JSON body, a CSV row or [data.json] can put into a record. *)
Inductive pyval :=
  | PNone
  | PBool (b : bool)
  | PInt (z : Z)
  | PFloat (f : float)
  | PStr (s : string)
  | PList (l : list pyval)
  | PDict (d : list (string * pyval)).

(** A record is a [Dict[str, Any]]. *)
Abbreviation entry := (gmap string pyval).

(** Python truth value: [bool(v)]. *)
Definition truthy (v : pyval) : bool :=
  match v with
  | PNone => false
  | PBool b => b
  | PInt z => negb (z =? 0)
  | PFloat f => negb (PrimFloat.eqb f 0%float)
  | PStr s => negb (String.eqb s EmptyString)
  | PList l => match l with [] => false | _ => true end
  | PDict d => match d with [] => false | _ => true end
  end.

(** [not d.get(k)]: a missing key reads as [None]. *)
Definition py_not_get (k : string) (d : entry) : bool :=
  negb (truthy (default PNone (d !! k))).

(** [d.setdefault(k, v)] *)
Definition setdefault (k : string) (v : pyval) (d : entry) : entry :=
  match d !! k with
  | Some _ => d
  | None => <[k := v]> d
  end.

(** ** Exceptions, outcomes and the world *)

Inductive exn :=
  | HTTPException (status_code : Z) (detail : string)
  | ValueError
  | TypeError
  | KeyError
  | AttributeError
  | OverflowError
  | ValidationError
  | UnicodeDecodeError.

Inductive outcome (A : Type) :=
  | Return (a : A)
  | Raise (e : exn).
Arguments Return {A} a.
Arguments Raise {A} e.

(** The process state the handlers share: the global [DATA] and the number
    of uuids drawn so far. *)
Record world := World { DATA : list entry; uuid_drawn : nat }.

Definition M (A : Type) : Type := world → outcome A * world.

#[global] Instance M_ret : MRet M := λ A a w, (Return a, w).
#[global] Instance M_bind : MBind M := λ A B k m w,
  match m w with
  | (Return a, w') => k a w'
  | (Raise e, w') => (Raise e, w')
  end.
Definition raise {A} (e : exn) : M A := λ w, (Raise e, w).

Definition get_DATA : M (list entry) := λ w, (Return (DATA w), w).
Definition set_DATA (l : list entry) : M unit :=
  λ w, (Return tt, World l (uuid_drawn w)).

(** [DATA.append(e)] *)
Definition DATA_append (e : entry) : M unit :=
  λ w, (Return tt, World (DATA w ++ [e]) (uuid_drawn w)).

(** The global exception handler: [HTTPException] keeps its status, every
    other exception becomes a 500; a value is a 200. *)
Definition status_of {A} (o : outcome A) : Z :=
  match o with
  | Return _ => 200
  | Raise (HTTPException c _) => c
  | Raise _ => 500
  end.

#[global] Instance outcome_ret : MRet outcome := λ A a, Return a.
#[global] Instance outcome_bind : MBind outcome := λ A B k o,
  match o with
  | Return a => k a
  | Raise e => Raise e
  end.

(** A computation that does not touch the world. *)
Definition lift {A} (o : outcome A) : M A := λ w, (o, w).

(** ** Python strings

    A [str] is kept as its UTF-8 bytes. Comparing the bytes
    lexicographically orders strings as Python orders them by code point,
    and a byte prefix is a code-point prefix; length and indexing count
    code points. *)

Definition is_continuation (a : Ascii.ascii) : bool :=
  let n := Ascii.N_of_ascii a in ((128 <=? n) && (n <? 192))%N.

Definition starts_in_continuation (s : string) : bool :=
  match s with
  | String a _ => is_continuation a
  | EmptyString => false
  end.

Fixpoint code_points (s : string) : list string :=
  match s with
  | EmptyString => []
  | String a rest =>
      match code_points rest with
      | c :: cs =>
          if starts_in_continuation c then String a c :: cs
          else String a EmptyString :: c :: cs
      | [] => [String a EmptyString]
      end
  end.

(** [len(s)] *)
Definition py_len (s : string) : nat := length (code_points s).

(** [a < b], [a > b], [a.startswith(b)] on strings *)
Definition str_lt (a b : string) : bool := String.ltb a b.
Definition str_gt (a b : string) : bool := String.ltb b a.
Definition startswith (s pre : string) : bool := String.prefix pre s.

(** [v != s] for a string [s]: only an equal string is equal. *)
Definition ne_str (v : pyval) (s : string) : bool :=
  match v with
  | PStr t => negb (String.eqb t s)
  | _ => true
  end.

(** ** Python floats *)

(** [float(z)] on an int: the nearest float, [OverflowError] beyond the
    range. *)
Definition float_of_int (z : Z) : outcome float :=
  let f := SF2Prim (binary_normalize prec emax z 0 false) in
  if is_infinity f then Raise OverflowError else Return f.

(** [x < y] on floats, read off their sign, exponent and mantissa; a NaN
    is below nothing and nothing is below it. *)
Definition float_ltb (x y : float) : bool := SFltb (Prim2SF x) (Prim2SF y).

(** ** The runtime *)

(** What the handlers take from the Python runtime and its libraries. The
    laws below hold for every runtime; [float] arithmetic itself is IEEE
    binary64, which is what [PrimFloat] computes. *)
Class PyRuntime := {
  (** the [n]-th value of [str(uuid.uuid4())] *)
  uuid4 : nat → string;
  (** [float(s)] on a string; [None] is [ValueError] *)
  float_of_str : string → option float;
  (** [str(x)] on a float *)
  float_str : float → string;
  (** [round(x, 2)] on a float *)
  float_round2 : float → float;
  (** [sum(xs)] of one or more floats, started from the int [0]: [+] from
      left to right, and a compensated sum from Python 3.12 on *)
  float_sum : list float → float;
  (** does the regular expression class [\d] match this code point? *)
  re_digit : string → bool;
  (** decode the uploaded bytes as UTF-8 and read them with
      [csv.DictReader] *)
  csv_DictReader : list Byte.byte → outcome (list entry);
}.

Section Handlers.
Context {rt : PyRuntime}.

(** [str(uuid.uuid4())] *)
Definition fresh_uuid : M string :=
  λ w, (Return (uuid4 (uuid_drawn w)), World (DATA w) (S (uuid_drawn w))).

(** ** POST /entries *)

Definition MSG_REQUIRED : string := "date と amount は必須です".
Definition UNCATEGORIZED : string := "未分類".
Definition MAX_ENTRIES : Z := 10000.

Record created_response := CreatedResponse {
  cr_status : string;
  cr_created : nat;
  cr_entries : list entry;
}.

(** The body of the [for entry in entries] loop up to the two appends:
    the record after its [setdefault] calls, or the 400. *)
Definition required_missing (e : entry) : bool :=
  py_not_get "date" e || py_not_get "amount" e.

Definition fill_defaults (e : entry) : entry :=
  setdefault "description" (PStr EmptyString)
    (setdefault "category" (PStr UNCATEGORIZED) e).

Fixpoint create_loop (entries created : list entry) : M (list entry) :=
  match entries with
  | [] => mret created
  | e :: rest =>
      u ← fresh_uuid;
      let e := setdefault "id" (PStr u) e in
      if required_missing e then raise (HTTPException 400 MSG_REQUIRED)
      else
        let e := fill_defaults e in
        DATA_append e;;
        create_loop rest (created ++ [e])
  end.

(** [DATA[-10_000:]] *)
Definition last_max (l : list entry) : list entry :=
  drop (Z.to_nat (Z.of_nat (length l) - MAX_ENTRIES)) l.

Definition create_entries (entries : list entry) : M created_response :=
  created ← create_loop entries [];
  data ← get_DATA;
  (if MAX_ENTRIES <? Z.of_nat (length data)
   then set_DATA (last_max data) else mret tt);;
  mret (CreatedResponse "success" (length created) created).

(** POST / is an alias. *)
Definition root_post (entries : list entry) : M created_response :=
  create_entries entries.

(** ** POST /entries/upload *)
Definition create_entries_csv (file : list Byte.byte) : M created_response :=
  match csv_DictReader file with
  | Return payload => create_entries payload
  | Raise e => raise e
  end.

(** ** Amounts *)

(** [float(v)] *)
Definition py_float (v : pyval) : outcome float :=
  match v with
  | PNone => Raise TypeError
  | PBool b => Return (if b then 1%float else 0%float)
  | PInt z => float_of_int z
  | PFloat f => Return f
  | PStr s =>
      match float_of_str s with
      | Some f => Return f
      | None => Raise ValueError
      end
  | PList _ | PDict _ => Raise TypeError
  end.

(** The body of the [try] in both aggregation loops of [filter_entries]:
    the float to add, [None] when the record is passed over (amount [None]
    or empty, or [ValueError]/[TypeError] caught); any other exception
    leaves the loop. *)
Definition amount_to_add (e : entry) : outcome (option float) :=
  let amount_value := default (PInt 0) (e !! "amount") in
  match amount_value with
  | PNone => Return None
  | PStr EmptyString => Return None
  | _ =>
      match py_float amount_value with
      | Return f => Return (Some f)
      | Raise ValueError | Raise TypeError => Return None
      | Raise x => Raise x
      end
  end.

(** ** Dictionaries keyed by category *)

(** Lists and dicts cannot be dict keys. *)
Definition hashable (v : pyval) : bool :=
  match v with
  | PList _ | PDict _ => false
  | _ => true
  end.

(** Is the float [f] the integer [z]? *)
Definition float_eq_int (f : float) (z : Z) : bool :=
  match Prim2SF f with
  | S754_zero _ => z =? 0
  | S754_finite s m e =>
      let z' := if s then - z else z in
      if 0 <=? e then Z.pos m * 2 ^ e =? z'
      else (Z.pos m mod 2 ^ (- e) =? 0) && (Z.pos m / 2 ^ (- e) =? z')
  | _ => false
  end.

(** Equality of two hashable keys: [None], strings, and numbers, where
    [True == 1 == 1.0]. Every NaN a JSON document holds is one object, so
    a NaN key finds itself. *)
Definition key_eqb (a b : pyval) : bool :=
  let int_of v :=
    match v with
    | PBool b => Some (if b then 1 else 0)
    | PInt z => Some z
    | _ => None
    end in
  match a, b with
  | PNone, PNone => true
  | PStr s, PStr t => String.eqb s t
  | PFloat f, PFloat g => PrimFloat.eqb f g || (is_nan f && is_nan g)
  | PFloat f, _ => match int_of b with Some z => float_eq_int f z | None => false end
  | _, PFloat g => match int_of a with Some z => float_eq_int g z | None => false end
  | _, _ =>
      match int_of a, int_of b with
      | Some y, Some z => y =? z
      | _, _ => false
      end
  end.

(** [d[k] = d.get(k, 0) + x] on a dict in insertion order. *)
Fixpoint dict_add (k : pyval) (x : float) (d : list (pyval * float))
  : list (pyval * float) :=
  match d with
  | [] => [(k, (0 + x)%float)]
  | (k', v) :: d' =>
      if key_eqb k' k then (k', (v + x)%float) :: d'
      else (k', v) :: dict_add k x d'
  end.

(** ** GET /entries *)

Record EntrySummary := mkEntrySummary {
  total : nat;
  total_amount : string;
  categories : list (string * float);
  entries : list entry;
}.

(** Walks the code points of the pattern [\d{4}-\d{2}-\d{2}]. *)
Definition date_shape (cs : list string) : bool :=
  match cs with
  | [y1; y2; y3; y4; h1; m1; m2; h2; d1; d2] =>
      re_digit y1 && re_digit y2 && re_digit y3 && re_digit y4 &&
      String.eqb h1 "-" && re_digit m1 && re_digit m2 &&
      String.eqb h2 "-" && re_digit d1 && re_digit d2
  | _ => false
  end.

(** [re.match(r"^\d{4}-\d{2}-\d{2}$", date_str)]: [$] also matches
    before a final newline. *)
Definition _is_valid_date_format (date_str : string) : bool :=
  let cs := code_points date_str in
  date_shape cs ||
  match reverse cs with
  | nl :: front => String.eqb nl (String (Ascii.ascii_of_N 10) EmptyString) && date_shape (reverse front)
  | [] => false
  end.

(** A query parameter is used when it is given and not empty
    ([if date_from and ...]). *)
Definition given (p : option string) : option string :=
  match p with
  | Some s => if String.eqb s EmptyString then None else Some s
  | None => None
  end.

(** [entry.get("date", "") < bound]: a date that is not a string cannot
    be compared with one. *)
Definition date_cmp (cmp : string → string → bool) (e : entry) (bound : string)
  : outcome bool :=
  match default (PStr EmptyString) (e !! "date") with
  | PStr d => Return (cmp d bound)
  | _ => Raise TypeError
  end.

(** One turn of the filtering loop: is the record appended? *)
Definition keeps (date_from date_to category : option string) (e : entry)
  : outcome bool :=
  early ← match given date_from with
          | Some b => date_cmp str_lt e b
          | None => Return false
          end;
  if early : bool then Return false else
  late ← match given date_to with
         | Some b => date_cmp str_gt e b
         | None => Return false
         end;
  if late : bool then Return false else
  match given category with
  | Some c => Return (negb (ne_str (default PNone (e !! "category")) c))
  | None => Return true
  end.

Fixpoint filter_loop (date_from date_to category : option string)
    (data : list entry) : outcome (list entry) :=
  match data with
  | [] => Return []
  | e :: rest =>
      k ← keeps date_from date_to category e;
      tl ← filter_loop date_from date_to category rest;
      Return (if k : bool then e :: tl else tl)
  end.

Fixpoint sum_loop (l : list entry) (total_amount : float) : outcome float :=
  match l with
  | [] => Return total_amount
  | e :: rest =>
      a ← amount_to_add e;
      match a with
      | Some f => sum_loop rest (total_amount + f)%float
      | None => sum_loop rest total_amount
      end
  end.

Fixpoint categories_loop (l : list entry) (categories : list (pyval * float))
  : outcome (list (pyval * float)) :=
  match l with
  | [] => Return categories
  | e :: rest =>
      let cat := default (PStr UNCATEGORIZED) (e !! "category") in
      a ← amount_to_add e;
      match a with
      | Some amount =>
          if hashable cat then categories_loop rest (dict_add cat amount categories)
          else categories_loop rest categories
      | None => categories_loop rest categories
      end
  end.

(** The [Dict[str, float]] field of the response model takes string keys
    only. *)
Fixpoint validate_categories (d : list (pyval * float))
  : outcome (list (string * float)) :=
  match d with
  | [] => Return []
  | (PStr k, v) :: d' => tl ← validate_categories d'; Return ((k, v) :: tl)
  | _ => Raise ValidationError
  end.

Definition filter_entries (date_from date_to category : option string)
  : M EntrySummary :=
  (if match given date_from with
      | Some s => negb (_is_valid_date_format s)
      | None => false
      end
   then raise (HTTPException 400 "date_from must be in YYYY-MM-DD format")
   else mret tt);;
  (if match given date_to with
      | Some s => negb (_is_valid_date_format s)
      | None => false
      end
   then raise (HTTPException 400 "date_to must be in YYYY-MM-DD format")
   else mret tt);;
  data ← get_DATA;
  lift (
    filtered_entries ← filter_loop date_from date_to category data;
    total_amount ← sum_loop filtered_entries 0%float;
    categories ← categories_loop filtered_entries [];
    categories ← validate_categories categories;
    Return (mkEntrySummary (length filtered_entries) (float_str total_amount)
              categories filtered_entries)).

(** ** GET /summary/{year_month} *)

Record category_row := CategoryRow {
  row_category : pyval;
  row_amount : string;
  row_percentage : string;
}.

Record summary_response := SummaryResponse {
  sr_year_month : string;
  sr_total_entries : nat;
  sr_total_amount : string;
  sr_categories : list category_row;
}.

Definition MSG_YEAR_MONTH : string := "year_month は YYYY-MM 形式で入力してください".

(** [e["date"].startswith(year_month)] *)
Definition in_month (year_month : string) (e : entry) : outcome bool :=
  match e !! "date" with
  | None => Raise KeyError
  | Some (PStr d) => Return (startswith d year_month)
  | Some _ => Raise AttributeError
  end.

Fixpoint monthly_of (year_month : string) (data : list entry)
  : outcome (list entry) :=
  match data with
  | [] => Return []
  | e :: rest =>
      k ← in_month year_month e;
      tl ← monthly_of year_month rest;
      Return (if k : bool then e :: tl else tl)
  end.

(** [float(e.get("amount", 0) or 0)] *)
Definition amount_or_zero (e : entry) : outcome float :=
  let v := default (PInt 0) (e !! "amount") in
  py_float (if truthy v then v else PInt 0).

(** [sum(xs)]: the int [0] when there is nothing to add. *)
Definition py_sum (xs : list float) : pyval :=
  match xs with
  | [] => PInt 0
  | _ => PFloat (float_sum xs)
  end.

Fixpoint summary_categories (l : list entry) (categories : list (pyval * float))
  : outcome (list (pyval * float)) :=
  match l with
  | [] => Return categories
  | e :: rest =>
      amt ← amount_or_zero e;
      match e !! "category" with
      | None => Raise KeyError
      | Some k =>
          if hashable k then summary_categories rest (dict_add k amt categories)
          else Raise TypeError
      end
  end.

(** [sorted(items, key=lambda i: i[1])] as a stable insertion sort that,
    like Python, asks only [<] of the keys. It is the order Python
    produces whenever no key is a NaN. *)
Fixpoint insert_sorted (x : pyval * float) (l : list (pyval * float))
  : list (pyval * float) :=
  match l with
  | [] => [x]
  | y :: l' =>
      if float_ltb y.2 x.2 then y :: insert_sorted x l'
      else x :: y :: l'
  end.

Definition sorted_by_amount (l : list (pyval * float)) : list (pyval * float) :=
  foldr insert_sorted [] l.

(** [reverse=True] reverses, sorts, and reverses again, which keeps equal
    keys in their first order. *)
Definition sorted_reverse (l : list (pyval * float)) : list (pyval * float) :=
  reverse (sorted_by_amount (reverse l)).

(** [str(x)] of the period total, an int [0] or a float *)
Definition total_str (x : pyval) : string :=
  match x with
  | PFloat f => float_str f
  | PInt z => pretty z
  | _ => EmptyString
  end.

(** The float a category's percentage is the [str] of. *)
Definition percentage_of (v total_amount : float) : float :=
  float_round2 (v / total_amount * 100)%float.

Definition category_row_of (total_amount : pyval) (kv : pyval * float)
  : category_row :=
  CategoryRow kv.1 (float_str kv.2)
    (match total_amount with
     | PFloat t =>
         if truthy total_amount then float_str (percentage_of kv.2 t) else "0"
     | _ => "0"
     end).

Definition get_summary (year_month : string) : M summary_response :=
  (if negb (py_len year_month =? 7)%nat
      || negb (bool_decide (code_points year_month !! 4%nat = Some "-"))
   then raise (HTTPException 400 MSG_YEAR_MONTH) else mret tt);;
  data ← get_DATA;
  lift (
    monthly ← monthly_of year_month data;
    amounts ← mapM amount_or_zero monthly;
    let total_amount := py_sum amounts in
    categories ← summary_categories monthly [];
    Return (SummaryResponse year_month (length monthly)
              (total_str total_amount)
              (category_row_of total_amount <$> sorted_reverse categories))).

(** ** POST /sample *)

Definition examples : list (string * string * string * string) :=
  [ ("2023-01-15", "食費", "スーパーマーケット", "3500");
    ("2023-01-20", "交通費", "電車", "1200");
    ("2023-01-25", "食費", "レストラン", "4800");
    ("2023-02-05", "日用品", "ドラッグストア", "2600");
    ("2023-02-10", "交際費", "飲み会", "5000");
    ("2023-02-15", "食費", "コンビニ", "800");
    ("2023-03-01", "光熱費", "電気代", "7200");
    ("2023-03-10", "通信費", "携帯電話", "8000");
    ("2023-03-15", "食費", "スーパーマーケット", "4200") ].

Definition sample_entry (id : string) (x : string * string * string * string)
  : entry :=
  let '(d, c, desc, amt) := x in
  <["amount" := PStr amt]>
    (<["description" := PStr desc]>
      (<["category" := PStr c]>
        (<["date" := PStr d]>
          (<["id" := PStr id]> ∅)))).

Record sample_response := SampleResponse {
  sp_status : string;
  sp_added : nat;
  sp_total : nat;
}.

Fixpoint seed_loop (xs : list (string * string * string * string)) : M unit :=
  match xs with
  | [] => mret tt
  | x :: rest =>
      u ← fresh_uuid;
      DATA_append (sample_entry u x);;
      seed_loop rest
  end.

Definition seed_sample : M sample_response :=
  seed_loop examples;;
  data ← get_DATA;
  mret (SampleResponse "success" (length examples) (length data)).

(** ** POST /clear_data and GET /healthz *)

Inductive clear_response :=
  | ClearRefused (message : string)
  | Cleared (cleared : nat).

Definition clear_data (confirm : bool) : M clear_response :=
  if negb confirm
  then mret (ClearRefused "確認が必要です。?confirm=true を追加してください。")
  else
    data ← get_DATA;
    set_DATA [];;
    mret (Cleared (length data)).

Definition health_check : M nat :=
  data ← get_DATA;
  mret (length data).

End Handlers.

(** * A reference runtime

    CPython 3.11 on ASCII input: floats are read, rounded and printed by
    exact integer arithmetic on their binary64 value. Text outside ASCII
    is read as UTF-8 but its digits and blanks are not recognised, and CSV
    is read without quoting. It gives the general laws something to run
    on and decides the concrete scenarios. *)

(** nearest binary64 to the rational [n / d], ties to even ([d > 0]) *)
Definition float_of_ratio (n d : Z) : float :=
  match n with
  | Z0 => 0%float
  | Zpos p => SF2Prim (SFdiv prec emax (S754_finite false p 0) (S754_finite false (Z.to_pos d) 0))
  | Zneg p => SF2Prim (SFdiv prec emax (S754_finite true p 0) (S754_finite false (Z.to_pos d) 0))
  end.

(** [a / b] rounded to the nearest integer, ties to even ([a >= 0], [b > 0]) *)
Definition div_half_even (a b : Z) : Z :=
  let q := a / b in
  let r := a mod b in
  match 2 * r ?= b with
  | Lt => q
  | Gt => q + 1
  | Eq => if Z.even q then q else q + 1
  end.

(** [round(x, 2)]: the exact value of [x] is rounded to two decimals, ties
    to even, and the decimal is read back as a float; zeros, infinities
    and NaN are returned as they are. *)
Definition ref_round2 (x : float) : float :=
  match Prim2SF x with
  | S754_finite s m e =>
      let '(num, den) := if 0 <=? e then (Z.pos m * 2 ^ e, 1) else (Z.pos m, 2 ^ (- e)) in
      let n := div_half_even (num * 100) den in
      if n =? 0 then (if s then (-0)%float else 0%float)
      else float_of_ratio (if s then - n else n) 100
  | _ => x
  end.

Definition digits10 (n : Z) : Z := Z.of_nat (String.length (pretty (Z.to_N n))).

(** value of [k * 10^p] as a float *)
Definition float_of_decimal (k p : Z) : float :=
  if 0 <=? p then float_of_ratio (k * 10 ^ p) 1 else float_of_ratio k (10 ^ (- p)).

(** The shortest decimal [k * 10^p] that reads back as [x = num/den > 0]:
    tried with 1, 2, ... significant digits. *)
Fixpoint shortest_from (fuel : nat) (n : Z) (x : float) (num den E : Z) : Z * Z :=
  let p := E - n + 1 in
  let '(a, b) := if 0 <=? p then (num, den * 10 ^ p) else (num * 10 ^ (- p), den) in
  let lo := a / b in
  let r := a mod b in
  let ok k := PrimFloat.eqb (float_of_decimal k p) x in
  let pick :=
    match ok lo, ok (lo + 1) with
    | true, false => Some lo
    | false, true => Some (lo + 1)
    | true, true =>
        match 2 * r ?= b with
        | Lt => Some lo
        | Gt => Some (lo + 1)
        | Eq => Some (if Z.even lo then lo else lo + 1)
        end
    | false, false => None
    end in
  match pick, fuel with
  | Some k, _ => (k, p)
  | None, O => (lo, p)
  | None, S fuel' => shortest_from fuel' (n + 1) x num den E
  end.

Fixpoint strip_zeros (fuel : nat) (k p : Z) : Z * Z :=
  match fuel with
  | O => (k, p)
  | S f => if (k mod 10 =? 0) && negb (k =? 0) then strip_zeros f (k / 10) (p + 1) else (k, p)
  end.

Fixpoint zeros_nat (n : nat) : string := match n with O => EmptyString | S n => ("0" +:+ zeros_nat n) end.
Definition zeros (n : Z) : string := zeros_nat (Z.to_nat n).

Definition take_s (n : Z) (s : string) : string := String.substring 0 (Z.to_nat n) s.
Definition drop_s (n : Z) (s : string) : string :=
  String.substring (Z.to_nat n) (String.length s - Z.to_nat n) s.

(** digits [ds] with the decimal point after [decpt] of them, the way repr
    lays a float out *)
Definition layout (ds : string) (decpt : Z) : string :=
  let n := Z.of_nat (String.length ds) in
  if (decpt <=? -4) || (16 <? decpt) then
    let ex := decpt - 1 in
    let mant := if n =? 1 then ds else take_s 1 ds +:+ "." +:+ drop_s 1 ds in
    let exs := pretty (Z.to_N (Z.abs ex)) in
    mant +:+ "e" +:+ (if ex <? 0 then "-" else "+") +:+
      (if Z.abs ex <? 10 then "0" else EmptyString) +:+ exs
  else if decpt <=? 0 then "0." +:+ zeros (- decpt) +:+ ds
  else if n <=? decpt then ds +:+ zeros (decpt - n) +:+ ".0"
  else take_s decpt ds +:+ "." +:+ drop_s decpt ds.

(** [repr(x)]: the shortest digits that read back as [x]. *)
Definition ref_repr (x : float) : string :=
  match Prim2SF x with
  | S754_nan => "nan"
  | S754_infinity s => if s then "-inf" else "inf"
  | S754_zero s => if s then "-0.0" else "0.0"
  | S754_finite s m e =>
      let '(num, den) := if 0 <=? e then (Z.pos m * 2 ^ e, 1) else (Z.pos m, 2 ^ (- e)) in
      let E0 := digits10 num - digits10 den in
      let E := if (if 0 <=? E0 then den * 10 ^ E0 <=? num else den <=? num * 10 ^ (- E0))
               then E0 else E0 - 1 in
      let '(k, p) := shortest_from 17 1 (abs x) num den E in
      let '(k, p) := strip_zeros 20 k p in
      let ds := pretty (Z.to_N k) in
      (if s then "-" else EmptyString) +:+ layout ds (Z.of_nat (String.length ds) + p)
  end.

Definition codes (s : string) : list Z :=
  (λ a, Z.of_N (Ascii.N_of_ascii a)) <$> String.list_ascii_of_string s.

Definition is_space (c : Z) : bool :=
  ((9 <=? c) && (c <=? 13)) || (c =? 32).
Definition is_digit (c : Z) : bool := (48 <=? c) && (c <=? 57).
Definition lower (c : Z) : Z := if (65 <=? c) && (c <=? 90) then c + 32 else c.

(** Underscores may only stand between two digits; they are dropped. *)
Fixpoint drop_underscores (prev : Z) (cs : list Z) : option (list Z) :=
  match cs with
  | [] => if prev =? 95 then None else Some []
  | c :: rest =>
      if c =? 95 then
        if is_digit prev then drop_underscores c rest else None
      else if (prev =? 95) && negb (is_digit c) then None
      else cons c <$> drop_underscores c rest
  end.

Fixpoint span (p : Z → bool) (cs : list Z) : list Z * list Z :=
  match cs with
  | c :: rest => if p c then let '(a, b) := span p rest in (c :: a, b) else ([], cs)
  | [] => ([], [])
  end.

Definition strip (cs : list Z) : list Z :=
  reverse (span is_space (reverse (span is_space cs).2)).2.

Definition split_sign (cs : list Z) : bool * list Z :=
  match cs with
  | 45 :: rest => (true, rest)
  | 43 :: rest => (false, rest)
  | _ => (false, cs)
  end.

Definition digits_of (cs : list Z) : list Z * list Z := span is_digit cs.

Definition number_of (ds : list Z) : Z := foldl (λ n c, 10 * n + (c - 48)) 0 ds.

(** the exponent part, when the whole rest is one *)
Definition exponent_of (cs : list Z) : option Z :=
  match cs with
  | [] => Some 0
  | e :: rest =>
      if lower e =? 101 then
        let '(neg, rest) := split_sign rest in
        let '(ds, tl) := digits_of rest in
        match ds, tl with
        | _ :: _, [] => Some (if neg then - number_of ds else number_of ds)
        | _, _ => None
        end
      else None
  end.

Definition decimal_value (mant ex : Z) : float :=
  if mant =? 0 then 0%float
  else
    let mag := digits10 mant + ex in
    if 400 <? mag then infinity
    else if mag <? -400 then 0%float
    else float_of_decimal mant ex.

(** [float(s)] on ASCII text: optional sign, then [inf], [infinity],
    [nan] in any case, or digits with an optional point and exponent;
    blanks around it are dropped. *)
Definition ref_float_of_str (s : string) : option float :=
  cs ← drop_underscores 0 (codes s);
  let '(neg, body) := split_sign (strip cs) in
  let word := String.string_of_list_ascii ((λ c, Ascii.ascii_of_N (Z.to_N (lower c))) <$> body) in
  let signed (f : float) := if neg : bool then (- f)%float else f in
  if bool_decide (word = "inf") || bool_decide (word = "infinity") then Some (signed infinity)
  else if bool_decide (word = "nan") then Some nan
  else
    let '(ip, rest) := digits_of body in
    let '(fp, rest) :=
      match rest with
      | 46 :: rest' => digits_of rest'
      | _ => ([], rest)
      end in
    match ip ++ fp with
    | [] => None
    | ds =>
        ex ← exponent_of rest;
        Some (signed (decimal_value (number_of ds) (ex - Z.of_nat (length fp))))
    end.

(** UTF-8 well-formedness, as [bytes.decode("utf-8")] checks it. *)
Fixpoint utf8_valid (fuel : nat) (bs : list Z) : bool :=
  let cont c := (128 <=? c) && (c <=? 191) in
  match fuel, bs with
  | _, [] => true
  | O, _ => false
  | S fuel, b0 :: rest =>
      if b0 <? 128 then utf8_valid fuel rest
      else if (194 <=? b0) && (b0 <=? 223) then
        match rest with
        | b1 :: rest => cont b1 && utf8_valid fuel rest
        | _ => false
        end
      else if (224 <=? b0) && (b0 <=? 239) then
        match rest with
        | b1 :: b2 :: rest =>
            cont b1 && cont b2
            && (if b0 =? 224 then 160 <=? b1 else true)
            && (if b0 =? 237 then b1 <=? 159 else true)
            && utf8_valid fuel rest
        | _ => false
        end
      else if (240 <=? b0) && (b0 <=? 244) then
        match rest with
        | b1 :: b2 :: b3 :: rest =>
            cont b1 && cont b2 && cont b3
            && (if b0 =? 240 then 144 <=? b1 else true)
            && (if b0 =? 244 then b1 <=? 143 else true)
            && utf8_valid fuel rest
        | _ => false
        end
      else false
  end.

(** the pieces of [cs] between occurrences of [sep] *)
Fixpoint split_on (sep : Z) (cs : list Z) : list (list Z) :=
  match cs with
  | [] => [[]]
  | c :: rest =>
      match split_on sep rest with
      | piece :: pieces =>
          if c =? sep then [] :: piece :: pieces else (c :: piece) :: pieces
      | [] => [[c]]
      end
  end.

Definition text_of (cs : list Z) : string :=
  String.string_of_list_ascii ((λ c, Ascii.ascii_of_N (Z.to_N c)) <$> cs).

(** [dict(zip(fieldnames, row))], and [None] under every field name the
    row is too short for *)
Definition row_dict (fieldnames row : list (list Z)) : entry :=
  let values :=
    (PStr ∘ text_of <$> row) ++ replicate (length fieldnames - length row) PNone in
  foldl (λ d kv, <[text_of kv.1 := kv.2]> d) ∅ (zip fieldnames values).

(** [csv.DictReader] on text without quotes or carriage returns, whose
    rows are no longer than the header: the first line names the fields,
    empty lines are passed over. *)
Definition ref_csv (file : list Byte.byte) : outcome (list entry) :=
  let bs := (λ b, Z.of_N (Byte.to_N b)) <$> file in
  if negb (utf8_valid (length bs) bs) then Raise UnicodeDecodeError
  else
    match split_on 10 bs with
    | [] => Return []
    | header :: lines =>
        let fieldnames := match header with [] => [] | _ => split_on 44 header end in
        Return (row_dict fieldnames ∘ split_on 44
                  <$> filter (λ l, l ≠ []) lines)
    end.

Definition ref_uuid4 (n : nat) : string := "uuid-" +:+ pretty n.

Definition ref_runtime : PyRuntime := {|
  uuid4 := ref_uuid4;
  float_of_str := ref_float_of_str;
  float_str := ref_repr;
  float_round2 := ref_round2;
  float_sum := foldl PrimFloat.add 0%float;
  re_digit := λ c, match codes c with [d] => is_digit d | _ => false end;
  csv_DictReader := ref_csv;
|}.

(** The empty Store of a fresh process. *)
Definition fresh_world : world := World [] 0.

(** * The vocabulary of the laws *)

Section Vocabulary.
Context {rt : PyRuntime}.

(** A record as [create_entries] stores it: its own fields, and the
    defaults for the id, the category and the description it lacks. *)
Definition prepare (u : string) (e : entry) : entry :=
  fill_defaults (setdefault "id" (PStr u) e).

(** The records of a batch as stored when the first of them draws the
    [n]-th uuid. *)
Fixpoint prepared (n : nat) (batch : list entry) : list entry :=
  match batch with
  | [] => []
  | e :: rest => prepare (uuid4 n) e :: prepared (S n) rest
  end.

(** The sample records as stored when the first of them draws the [n]-th
    uuid. *)
Fixpoint seeded (n : nat) (xs : list (string * string * string * string))
  : list entry :=
  match xs with
  | [] => []
  | x :: rest => sample_entry (uuid4 n) x :: seeded (S n) rest
  end.

(** A field is absent or falsy. *)
Definition absent_or_falsy (o : option pyval) : Prop :=
  o = None ∨ ∃ v, o = Some v ∧ truthy v = false.

(** A record lacks a required field: its date or its amount is absent or
    falsy. *)
Definition lacks_required (e : entry) : Prop :=
  absent_or_falsy (e !! "date") ∨ absent_or_falsy (e !! "amount").

(** [kept] is [l] without the elements that fail [P], in the order of [l]. *)
Inductive Kept {A} (P : A → Prop) : list A → list A → Prop :=
  | Kept_nil : Kept P [] []
  | Kept_take x l kept : P x → Kept P l kept → Kept P (x :: l) (x :: kept)
  | Kept_skip x l kept : ¬ P x → Kept P l kept → Kept P (x :: l) kept.

(** The lexicographic order of strings. *)
Inductive lex_le : string → string → Prop :=
  | lex_le_empty t : lex_le EmptyString t
  | lex_le_below a s b t :
      (Ascii.N_of_ascii a < Ascii.N_of_ascii b)%N → lex_le (String a s) (String b t)
  | lex_le_same a s t : lex_le s t → lex_le (String a s) (String a t).

(** The query parameter [p] is provided, with value [b]. *)
Definition provided (p : option string) (b : string) : Prop :=
  p = Some b ∧ b ≠ EmptyString.

(** The date a record is filtered by: its date field, the empty string
    when it has none. *)
Definition date_value (e : entry) : pyval :=
  default (PStr EmptyString) (e !! "date").

(** Every provided bound holds of the record: its date is a string not
    below [date_from] and not above [date_to], and its category is the one
    asked for. *)
Definition bounds_hold (date_from date_to category : option string) (e : entry)
  : Prop :=
  (∀ b, provided date_from b → ∃ d, date_value e = PStr d ∧ lex_le b d)
  ∧ (∀ b, provided date_to b → ∃ d, date_value e = PStr d ∧ lex_le d b)
  ∧ (∀ c, provided category c → e !! "category" = Some (PStr c)).

(** The amount of a record as a number, when it parses as one: the field
    [amount], read as 0 when the record has none, is neither [None] nor
    empty and [float] takes it. *)
Definition parsed_amount (e : entry) : option float :=
  match default (PInt 0) (e !! "amount") with
  | PNone => None
  | PStr EmptyString => None
  | v => match py_float v with
         | Return f => Some f
         | Raise _ => None
         end
  end.

(** The sum of a list of floats, added from the left onto 0.0. *)
Definition sum_floats (xs : list float) : float := foldl PrimFloat.add 0%float xs.

(** The category a record is summed under in GET /entries. *)
Definition category_value (e : entry) : pyval :=
  default (PStr UNCATEGORIZED) (e !! "category").

(** The parsed amounts of the records of category [c], in order. *)
Definition amounts_in (c : string) (l : list entry) : list float :=
  omap (λ e, match category_value e with
             | PStr c' => if String.eqb c' c then parsed_amount e else None
             | _ => None
             end) l.

(** What a mapping from categories to amounts holds for [c]. *)
Definition mapping_get (c : string) (m : list (string * float)) : option float :=
  snd <$> find (λ kv, String.eqb kv.1 c) m.

(** What a dict keyed by category holds for the string [c]. *)
Definition dict_get (c : string) (d : list (pyval * float)) : option float :=
  snd <$> find (λ kv, match kv.1 with PStr k => String.eqb k c | _ => false end) d.

(** All keys of the dict are strings. *)
Definition string_keyed (d : list (pyval * float)) : Prop :=
  Forall (λ kv, ∃ k, kv.1 = PStr k) d.

(** What one record adds to the amount [acc] held for [c]. *)
Definition bump (c : string) (acc : option float) (e : entry) : option float :=
  match category_value e with
  | PStr c' =>
      if String.eqb c' c then
        match parsed_amount e with
        | Some x => Some (default 0%float acc + x)%float
        | None => acc
        end
      else acc
  | _ => acc
  end.

(** The sum a category is reported with: none when no record of the
    category has an amount that parses. *)
Definition category_sum (c : string) (l : list entry) : option float :=
  match amounts_in c l with
  | [] => None
  | xs => Some (sum_floats xs)
  end.



(** A record GET /summary can take in: a string date, a category that can
    be a dict key, and an amount that [float] accepts. *)
Definition summable (e : entry) : Prop :=
  (∃ d, e !! "date" = Some (PStr d))
  ∧ (∃ k, e !! "category" = Some k ∧ hashable k = true)
  ∧ (∃ f, amount_or_zero e = Return f).

(** A date parameter is left out or has the format asked for. *)
Definition well_formed_date (p : option string) : Prop :=
  ∀ s, provided p s → _is_valid_date_format s = true.



(** The newest [n] elements of [l]: all of [l] when it has no more. *)
Definition newest {A} (n : nat) (l : list A) : list A :=
  drop (length l - n) l.

End Vocabulary.

(** ** Sample requests *)

(** [{"date": "2023-01-01", "category": "food", "amount": "10"}] *)
Definition good_record : entry :=
  <["amount" := PStr "10"]> (<["category" := PStr "food"]>
    (<["date" := PStr "2023-01-01"]> ∅)).

(** [{"date": "2023-01-01", "category": "food", "amount": 0}] *)
Definition zero_amount_record : entry :=
  <["amount" := PInt 0]> (<["category" := PStr "food"]>
    (<["date" := PStr "2023-01-01"]> ∅)).

(** [{"date": "2023-01-01", "category": "food", "amount": "abc"}] *)
Definition nonnumeric_record : entry :=
  <["amount" := PStr "abc"]> (<["category" := PStr "food"]>
    (<["date" := PStr "2023-01-01"]> ∅)).

(** The Store after POST /sample and a POST /entries of the record with
    amount [abc]. *)
Definition mixed_world : world :=
  (@create_entries ref_runtime [nonnumeric_record]
     (@seed_sample ref_runtime fresh_world).2).2.

(** The summary a GET /entries returned. *)
Definition returned (o : outcome EntrySummary) : EntrySummary :=
  match o with
  | Return r => r
  | Raise _ => mkEntrySummary 0 EmptyString [] []
  end.




(** The response a GET /summary returned. *)
Definition summary_returned (o : outcome summary_response) : summary_response :=
  match o with
  | Return r => r
  | Raise _ => SummaryResponse EmptyString 0 EmptyString []
  end.

(** A Store that holds exactly [MAX_ENTRIES] records. *)
Definition full_world : world :=
  World (replicate (Z.to_nat MAX_ENTRIES) (prepare "a" good_record)) 0.

(** An upload of one row whose amount is [abc]. *)
Definition nonnumeric_csv : list Byte.byte :=
  String.list_byte_of_string "date,category,amount
2023-01-01,food,abc
".

(** * The rest of the service *)

Section MoreHandlers.
Context {rt : PyRuntime}.

(** ** The amount validator of the [Entry] model *)

(** [Entry.validate_amount]: [None] and the empty string become 0.0, and
    what [float] refuses with [ValueError] or [TypeError] is a
    [ValueError]. *)
Definition validate_amount (v : pyval) : outcome float :=
  match v with
  | PNone => Return 0%float
  | PStr EmptyString => Return 0%float
  | _ =>
      match py_float v with
      | Return f => Return f
      | Raise ValueError | Raise TypeError => Raise ValueError
      | Raise x => Raise x
      end
  end.

(** ** The CSV export *)

(** [e["date"] >= b] *)
Definition date_ge (b : string) (e : entry) : outcome bool :=
  match e !! "date" with
  | None => Raise KeyError
  | Some (PStr d) => Return (negb (str_lt d b))
  | Some _ => Raise TypeError
  end.

(** [e["date"] <= b] *)
Definition date_le (b : string) (e : entry) : outcome bool :=
  match e !! "date" with
  | None => Raise KeyError
  | Some (PStr d) => Return (negb (str_gt d b))
  | Some _ => Raise TypeError
  end.

(** [e["category"] == c] *)
Definition category_eq (c : string) (e : entry) : outcome bool :=
  match e !! "category" with
  | None => Raise KeyError
  | Some v => Return (negb (ne_str v c))
  end.

(** [[e for e in l if test(e)]] *)
Fixpoint comprehension (test : entry → outcome bool) (l : list entry)
  : outcome (list entry) :=
  match l with
  | [] => Return []
  | e :: rest =>
      k ← test e;
      tl ← comprehension test rest;
      Return (if k : bool then e :: tl else tl)
  end.

(** The three filtering statements of [export_entries_csv]: the rows it
    hands to [csv.DictWriter]. *)
Definition export_filter (date_from date_to category : option string)
    (data : list entry) : outcome (list entry) :=
  filtered ← match given date_from with
             | Some b => comprehension (date_ge b) data
             | None => Return data
             end;
  filtered ← match given date_to with
             | Some b => comprehension (date_le b) filtered
             | None => Return filtered
             end;
  match given category with
  | Some c => comprehension (category_eq c) filtered
  | None => Return filtered
  end.

(** ** The requests the service takes *)

(** One constructor per route. GET /entries is registered twice; the
    request goes to [filter_entries], the first of the two handlers, and
    the export reads the Store without changing it either. *)
Inductive request :=
  | GetRoot
  | PostRoot (entries : list entry)
  | PostEntries (entries : list entry)
  | PostUpload (file : list Byte.byte)
  | GetEntries (date_from date_to category : option string)
  | GetSummary (year_month : string)
  | PostSample
  | PostClear (confirm : bool)
  | GetHealthz.

(** The world a request leaves behind, whatever its answer. GET / is a
    redirect and touches nothing. *)
Definition serve (w : world) (r : request) : world :=
  match r with
  | GetRoot => w
  | PostRoot entries => (root_post entries w).2
  | PostEntries entries => (create_entries entries w).2
  | PostUpload file => (create_entries_csv file w).2
  | GetEntries date_from date_to category =>
      (filter_entries date_from date_to category w).2
  | GetSummary year_month => (get_summary year_month w).2
  | PostSample => (seed_sample w).2
  | PostClear confirm => (clear_data confirm w).2
  | GetHealthz => (health_check w).2
  end.

End MoreHandlers.

(** ** More vocabulary *)

(** A record has all five fields, with a truthy date and amount. *)
Definition complete (e : entry) : Prop :=
  required_missing e = false
  ∧ is_Some (e !! "id") ∧ is_Some (e !! "category") ∧ is_Some (e !! "description").

(** The string keys of a dict, in insertion order. *)
Definition dict_keys (d : list (pyval * float)) : list string :=
  omap (λ kv, match kv.1 with PStr k => Some k | _ => None end) d.

(** The record's date is a string that starts with [pre]. *)
Definition date_starts_with (pre : string) (e : entry) : Prop :=
  ∃ rest, e !! "date" = Some (PStr (pre +:+ rest)).

(** The amounts GET /summary adds for the category [c]: those of the
    records of [l] whose category is the string [c], in order. *)
Definition summary_amounts_in {rt : PyRuntime} (c : string) (l : list entry)
  : list float :=
  omap (λ e, match e !! "category" with
             | Some (PStr c') =>
                 if String.eqb c' c then
                   match amount_or_zero e with
                   | Return f => Some f
                   | Raise _ => None
                   end
                 else None
             | _ => None
             end) l.

(** The record's category is a string. *)
Definition category_is_text (e : entry) : Prop :=
  ∃ c, e !! "category" = Some (PStr c).

(** The record has a date that is not a string. *)
Definition date_not_text (e : entry) : Prop :=
  ∃ v, e !! "date" = Some v ∧ ∀ d, v ≠ PStr d.

(** A date parameter is provided and does not have the format asked for. *)
Definition malformed_date (p : option string) {rt : PyRuntime} : Prop :=
  ∃ s, provided p s ∧ _is_valid_date_format s = false.

(** [year_month] has the form the summary asks for: seven code points, the
    fifth a hyphen. *)
Definition year_month_shaped (year_month : string) : Prop :=
  py_len year_month = 7%nat ∧ code_points year_month !! 4%nat = Some "-".

(** [{"date": d, "category": "food", "amount": a}] *)
Definition record_of (d : pyval) (a : pyval) : entry :=
  <["amount" := a]> (<["category" := PStr "food"]> (<["date" := d]> ∅)).

(** A Store whose one record has the int [20230115] for a date. *)
Definition nontext_world : world :=
  World [record_of (PInt 20230115) (PStr "10")] 0.

(** A Store of three records of January 2023, the last with the amount
    [abc]. *)
Definition january_world : world :=
  World [good_record; zero_amount_record; nonnumeric_record] 0.

(** * Properties *)

(** ** Running the monad *)

Lemma run_bind {A B} (m : M A) (k : A → M B) w :
  (m ≫= k) w = match m w with
               | (Return a, w') => k a w'
               | (Raise e, w') => (Raise e, w')
               end.
Proof. reflexivity. Qed.

Lemma run_ret {A} (a : A) w : (mret a : M A) w = (Return a, w).
Proof. reflexivity. Qed.

Section CreateLaws.
Context {rt : PyRuntime}.

Lemma lookup_setdefault_ne k k' v (e : entry) :
  k ≠ k' → setdefault k v e !! k' = e !! k'.
Proof.
  intros Hne. unfold setdefault. destruct (e !! k) eqn:Hk; [done|].
  by rewrite lookup_insert_ne.
Qed.

Lemma required_missing_setdefault_id u (e : entry) :
  required_missing (setdefault "id" (PStr u) e) = required_missing e.
Proof.
  unfold required_missing, py_not_get.
  by rewrite !lookup_setdefault_ne.
Qed.

Lemma prepare_lookup u (e : entry) k :
  k ≠ "id" → k ≠ "category" → k ≠ "description" →
  prepare u e !! k = e !! k.
Proof.
  intros. unfold prepare, fill_defaults.
  by rewrite !lookup_setdefault_ne.
Qed.

Lemma length_prepared n batch : length (prepared n batch) = length batch.
Proof. revert n. induction batch as [|e rest IH]; intros n; simpl; [done|]. by rewrite IH. Qed.

Lemma prepared_app n pre post :
  prepared n (pre ++ post) = prepared n pre ++ prepared (n + length pre) post.
Proof.
  revert n. induction pre as [|e rest IH]; intros n; simpl.
  - by rewrite Nat.add_0_r.
  - rewrite IH. do 3 f_equal. lia.
Qed.

Lemma absent_or_falsy_spec k (e : entry) :
  py_not_get k e = true ↔ absent_or_falsy (e !! k).
Proof.
  unfold py_not_get, absent_or_falsy. destruct (e !! k) as [v|]; simpl.
  - rewrite negb_true_iff. split.
    + intros H. right. eauto.
    + intros [?|(v' & [= <-] & ?)]; done.
  - split; [by left|done].
Qed.

Lemma lacks_required_spec (e : entry) :
  required_missing e = true ↔ lacks_required e.
Proof.
  unfold required_missing, lacks_required.
  rewrite orb_true_iff, !absent_or_falsy_spec. done.
Qed.

(** The loop over a batch whose records all pass the check. *)
Lemma create_loop_ok batch : ∀ created w,
  Forall (λ e, required_missing e = false) batch →
  create_loop batch created w
  = (Return (created ++ prepared (uuid_drawn w) batch),
     World (DATA w ++ prepared (uuid_drawn w) batch)
           (uuid_drawn w + length batch)).
Proof.
  induction batch as [|e rest IH]; intros created w Hok; simpl.
  - rewrite run_ret, !app_nil_r, Nat.add_0_r. by destruct w.
  - inversion Hok as [|? ? He Hrest]; subst.
    rewrite run_bind. simpl.
    rewrite required_missing_setdefault_id, He.
    rewrite run_bind. simpl.
    rewrite IH by done. simpl.
    rewrite <- !app_assoc. simpl. do 2 f_equal. lia.
Qed.

(** The loop up to the first record that fails the check. *)
Lemma create_loop_fail pre bad post : ∀ created w,
  Forall (λ e, required_missing e = false) pre →
  required_missing bad = true →
  create_loop (pre ++ bad :: post) created w
  = (Raise (HTTPException 400 MSG_REQUIRED),
     World (DATA w ++ prepared (uuid_drawn w) pre)
           (S (uuid_drawn w + length pre))).
Proof.
  induction pre as [|e rest IH]; intros created w Hok Hbad; simpl.
  - rewrite run_bind. simpl.
    rewrite required_missing_setdefault_id, Hbad.
    by rewrite app_nil_r, Nat.add_0_r.
  - inversion Hok as [|? ? He Hrest]; subst.
    rewrite run_bind. simpl.
    rewrite required_missing_setdefault_id, He.
    rewrite run_bind. simpl.
    rewrite IH by done. simpl.
    rewrite <- !app_assoc. simpl. do 3 f_equal. lia.
Qed.

End CreateLaws.

Section CreateClaims.
Context {rt : PyRuntime}.

Lemma newest_spec (l : list entry) :
  (if MAX_ENTRIES <? Z.of_nat (length l) then last_max l else l)
  = newest (Z.to_nat MAX_ENTRIES) l.
Proof.
  unfold newest, last_max, MAX_ENTRIES.
  destruct (Z.ltb_spec 10000 (Z.of_nat (length l))).
  - f_equal. lia.
  - replace (length l - Z.to_nat 10000)%nat with 0%nat by lia. done.
Qed.

(** A create whose records all pass the check. *)
Lemma create_entries_ok batch w :
  Forall (λ e, required_missing e = false) batch →
  create_entries batch w
  = (Return (CreatedResponse "success" (length batch) (prepared (uuid_drawn w) batch)),
     World (newest (Z.to_nat MAX_ENTRIES) (DATA w ++ prepared (uuid_drawn w) batch))
           (uuid_drawn w + length batch)).
Proof.
  intros Hok. unfold create_entries.
  rewrite run_bind, (create_loop_ok batch [] w Hok). simpl.
  rewrite run_bind. simpl. rewrite run_bind.
  rewrite <- newest_spec. rewrite length_prepared.
  destruct (MAX_ENTRIES <? _); reflexivity.
Qed.

(** A create with a record that fails the check. *)
Lemma create_entries_fail pre bad post w :
  Forall (λ e, required_missing e = false) pre →
  required_missing bad = true →
  create_entries (pre ++ bad :: post) w
  = (Raise (HTTPException 400 MSG_REQUIRED),
     World (DATA w ++ prepared (uuid_drawn w) pre)
           (S (uuid_drawn w + length pre))).
Proof.
  intros Hok Hbad. unfold create_entries.
  by rewrite run_bind, (create_loop_fail pre bad post [] w Hok Hbad).
Qed.

(** Every batch passes the check throughout or has a first record that
    fails it. *)
Lemma first_invalid (batch : list entry) :
  Forall (λ e, required_missing e = false) batch ∨
  ∃ pre bad post, batch = pre ++ bad :: post
    ∧ Forall (λ e, required_missing e = false) pre
    ∧ required_missing bad = true.
Proof.
  induction batch as [|e rest IH]; [by left|].
  destruct (required_missing e) eqn:He.
  - right. exists [], e, rest. by repeat split.
  - destruct IH as [Hall|(pre & bad & post & -> & Hpre & Hbad)].
    + left. by constructor.
    + right. exists (e :: pre), bad, post. repeat split; [|done]. by constructor.
Qed.


(** C4. POST /entries fails with the 400 "required" error exactly when
    some record of the batch has an absent or falsy date or amount; a
    record whose amount is the number 0 is such a record. *)
Theorem create_rejects_iff_required_missing batch w :
  ((create_entries batch w).1 = Raise (HTTPException 400 MSG_REQUIRED)
   ↔ Exists lacks_required batch)
  ∧ ∀ (e : entry) pre post w',
      (create_entries (pre ++ <["amount" := PInt 0]> e :: post) w').1
      = Raise (HTTPException 400 MSG_REQUIRED).
Proof.
  split.
  - destruct (first_invalid batch) as [Hall|(pre & bad & post & -> & Hpre & Hbad)].
    + rewrite (create_entries_ok batch w Hall). cbn [fst]. split; [done|].
      intros Hex. exfalso. apply Exists_exists in Hex as (e & Hin & Hlack).
      apply lacks_required_spec in Hlack.
      rewrite Forall_forall in Hall. specialize (Hall e Hin). congruence.
    + rewrite (create_entries_fail pre bad post w Hpre Hbad). cbn [fst].
      split; [|done]. intros _. apply Exists_app. right. constructor.
      by apply lacks_required_spec.
  - intros e pre post w'.
    assert (Hzero : required_missing (<["amount" := PInt 0]> e) = true).
    { apply lacks_required_spec. right. right. exists (PInt 0).
      by rewrite lookup_insert_eq. }
    destruct (first_invalid pre) as [Hall|(p & b & q & -> & Hp & Hb)].
    + by rewrite (create_entries_fail pre _ post w' Hall Hzero).
    + rewrite <- app_assoc. simpl.
      by rewrite (create_entries_fail p b _ w' Hp Hb).
Qed.

(** C5 (as the code has it). When a record fails the required-field check
    the request fails with the 400, and the Store keeps what the loop had
    appended: the records before the first failing one, with their
    defaults; that record and the ones after it are not appended. *)
Theorem create_stops_at_first_invalid pre bad post w :
  Forall (λ e, required_missing e = false) pre →
  required_missing bad = true →
  let out := create_entries (pre ++ bad :: post) w in
  out.1 = Raise (HTTPException 400 MSG_REQUIRED)
  ∧ DATA out.2 = DATA w ++ prepared (uuid_drawn w) pre.
Proof.
  intros Hok Hbad out. subst out.
  by rewrite (create_entries_fail pre bad post w Hok Hbad).
Qed.

(** C8 (as the code has it). The create path tests the amount for truth
    only: a batch whose records have a truthy date and a truthy amount is
    accepted whatever the amounts are, each record is stored with the
    amount it came with, and an upload goes through the same check. *)
Theorem create_stores_truthy_amounts batch w :
  Forall (λ e, required_missing e = false) batch →
  let out := create_entries batch w in
  ∃ r, out.1 = Return r
    ∧ cr_created r = length batch
    ∧ Forall2 (λ e e', e' !! "amount" = e !! "amount") batch (cr_entries r)
    ∧ DATA out.2 = newest (Z.to_nat MAX_ENTRIES) (DATA w ++ cr_entries r)
    ∧ ∀ file, csv_DictReader file = Return batch → create_entries_csv file w = out.
Proof.
  intros Hok out. subst out. rewrite (create_entries_ok batch w Hok).
  eexists. split; [reflexivity|]. cbn [fst snd DATA cr_created cr_entries].
  split; [done|]. split; [|split; [done|]].
  - generalize (uuid_drawn w). clear Hok.
    induction batch as [|e rest IH]; intros n; simpl; constructor; [|apply IH].
    by apply prepare_lookup.
  - intros file Hfile. unfold create_entries_csv. rewrite Hfile.
    by rewrite (create_entries_ok batch w Hok).
Qed.

Lemma length_seeded n xs : length (seeded n xs) = length xs.
Proof. revert n. induction xs as [|x rest IH]; intros n; simpl; [done|]. by rewrite IH. Qed.

Lemma seed_loop_run xs : ∀ w,
  seed_loop xs w
  = (Return tt, World (DATA w ++ seeded (uuid_drawn w) xs) (uuid_drawn w + length xs)).
Proof.
  induction xs as [|x rest IH]; intros w; simpl.
  - rewrite run_ret, app_nil_r, Nat.add_0_r. by destruct w.
  - rewrite run_bind. simpl. rewrite run_bind. simpl.
    rewrite IH. simpl. rewrite <- app_assoc. simpl. do 2 f_equal. lia.
Qed.

Lemma seed_sample_run w :
  seed_sample w
  = (Return (SampleResponse "success" 9 (length (DATA w) + 9)),
     World (DATA w ++ seeded (uuid_drawn w) examples) (uuid_drawn w + 9)).
Proof.
  unfold seed_sample. rewrite run_bind, seed_loop_run.
  cbv beta iota. rewrite run_bind. unfold get_DATA. cbv beta iota.
  rewrite run_ret. cbn [DATA uuid_drawn].
  rewrite length_app, length_seeded. reflexivity.
Qed.

(** C10. POST /sample appends its nine records and nothing else: the
    Store grows by nine whatever its size, so a Store within the 10,000
    bound can leave it. *)
Theorem seed_sample_does_not_trim :
  (∀ w,
     let out := seed_sample w in
     out.1 = Return (SampleResponse "success" 9 (length (DATA w) + 9))
     ∧ DATA out.2 = DATA w ++ seeded (uuid_drawn w) examples
     ∧ Z.of_nat (length (DATA out.2)) = Z.of_nat (length (DATA w)) + 9)
  ∧ ∃ w, Z.of_nat (length (DATA w)) ≤ MAX_ENTRIES
      ∧ MAX_ENTRIES < Z.of_nat (length (DATA (seed_sample w).2)).
Proof.
  split.
  - intros w out. subst out. rewrite seed_sample_run. cbn [fst snd DATA].
    split; [done|]. split; [done|].
    rewrite length_app, length_seeded. cbn [length examples]. lia.
  - exists full_world. rewrite seed_sample_run. cbn [fst snd DATA full_world].
    rewrite length_app, length_replicate, length_seeded. cbn [length examples].
    unfold MAX_ENTRIES. lia.
Qed.

End CreateClaims.

(** ** Runs on the reference runtime *)



(** The failing create on a batch of a valid record, one with amount 0,
    and a valid one. *)
Lemma create_stops_at_first_invalid_witness :
  Forall (λ e, required_missing e = false) [good_record]
  ∧ required_missing zero_amount_record = true
  ∧ let out := @create_entries ref_runtime
                 ([good_record] ++ zero_amount_record :: [good_record]) fresh_world in
    out.1 = Raise (HTTPException 400 MSG_REQUIRED)
    ∧ DATA out.2
      = DATA fresh_world ++ @prepared ref_runtime (uuid_drawn fresh_world) [good_record].
Proof.
  assert (H : Forall (λ e, required_missing e = false) [good_record]).
  { repeat constructor. }
  split; [exact H|]. split; [reflexivity|].
  exact (@create_stops_at_first_invalid ref_runtime [good_record] zero_amount_record
           [good_record] fresh_world H eq_refl).
Defined.

(** A batch of a valid record and one with amount 0 fails, and the valid
    record is in the Store afterwards. *)
Lemma create_is_not_atomic :
  let out := @create_entries ref_runtime [good_record; zero_amount_record] fresh_world in
  out.1 = Raise (HTTPException 400 MSG_REQUIRED)
  ∧ DATA out.2 = [prepare "uuid-0" good_record]
  ∧ DATA out.2 ≠ DATA fresh_world.
Proof. vm_compute. repeat split. discriminate. Qed.

(** The create of the record whose amount is [abc]. *)
Lemma create_stores_truthy_amounts_witness :
  Forall (λ e, required_missing e = false) [nonnumeric_record]
  ∧ let out := @create_entries ref_runtime [nonnumeric_record] fresh_world in
    ∃ r, out.1 = Return r
      ∧ cr_created r = length [nonnumeric_record]
      ∧ Forall2 (λ e e', e' !! "amount" = e !! "amount") [nonnumeric_record] (cr_entries r)
      ∧ DATA out.2 = newest (Z.to_nat MAX_ENTRIES) (DATA fresh_world ++ cr_entries r)
      ∧ ∀ file, @csv_DictReader ref_runtime file = Return [nonnumeric_record] →
          @create_entries_csv ref_runtime file fresh_world = out.
Proof.
  assert (H : Forall (λ e, required_missing e = false) [nonnumeric_record]).
  { repeat constructor. }
  split; [exact H|].
  exact (@create_stores_truthy_amounts ref_runtime [nonnumeric_record] fresh_world H).
Defined.

(** The amount [abc] is no number, and a record that carries it is
    created and stored, from a JSON body and from an upload alike. *)
Lemma nonnumeric_amount_is_stored :
  @py_float ref_runtime (PStr "abc") = Raise ValueError
  ∧ (let out := @create_entries ref_runtime [nonnumeric_record] fresh_world in
     status_of out.1 = 200
     ∧ DATA out.2 = [prepare "uuid-0" nonnumeric_record]
     ∧ prepare "uuid-0" nonnumeric_record !! "amount" = Some (PStr "abc"))
  ∧ (let out := @create_entries_csv ref_runtime nonnumeric_csv fresh_world in
     status_of out.1 = 200
     ∧ DATA out.2 = [prepare "uuid-0" nonnumeric_record]).
Proof. vm_compute. repeat split. Qed.

(** C6 (where the code departs from it). A record whose amount is [abc],
    created by POST /entries, is counted and listed by GET /entries and
    left out of its sums; GET /summary/2023-01 on the same Store raises
    [ValueError] and answers 500. *)
Theorem summary_fails_on_nonnumeric_amount :
  let w := (@create_entries ref_runtime [nonnumeric_record] fresh_world).2 in
  (@filter_entries ref_runtime None None None w).1
  = Return (mkEntrySummary 1 "0.0" [] [prepare "uuid-0" nonnumeric_record])
  ∧ (@get_summary ref_runtime "2023-01" w).1 = Raise ValueError
  ∧ status_of (@get_summary ref_runtime "2023-01" w).1 = 500.
Proof. vm_compute. repeat split. Qed.

(** ** GET /entries: which records are matched *)

Lemma compare_not_Lt_lex_le a : ∀ b, String.compare a b ≠ Lt ↔ lex_le b a.
Proof.
  induction a as [|c1 a' IH]; intros [|c2 b']; simpl.
  - split; [constructor|done].
  - split; [done|]. inversion 1.
  - split; [constructor|done].
  - unfold Ascii.compare.
    destruct (N.compare_spec (Ascii.N_of_ascii c1) (Ascii.N_of_ascii c2)) as [Heq|Hlt|Hgt].
    + apply (f_equal Ascii.ascii_of_N) in Heq.
      rewrite !Ascii.ascii_N_embedding in Heq. subst c2.
      rewrite IH. split.
      * by constructor.
      * inversion 1; subst; [lia|done].
    + split; [done|]. inversion 1; subst; lia.
    + split; [|done]. intros _. by constructor.
Qed.

Lemma str_lt_false a b : str_lt a b = false ↔ lex_le b a.
Proof.
  rewrite <- compare_not_Lt_lex_le. unfold str_lt, String.ltb.
  destruct (String.compare a b); split; congruence.
Qed.

Lemma str_gt_false a b : str_gt a b = false ↔ lex_le a b.
Proof. unfold str_gt. apply (str_lt_false b a). Qed.

Lemma given_provided p b : given p = Some b ↔ provided p b.
Proof.
  unfold given, provided. destruct p as [s|]; [|split; [done|by intros [? _]]].
  destruct (String.eqb_spec s EmptyString) as [->|Hne]; split.
  - done.
  - intros [[= <-] ?]. done.
  - intros [= <-]. done.
  - by intros [[= <-] _].
Qed.

Lemma given_None p : given p = None → ∀ b, ¬ provided p b.
Proof. intros Hg b Hp. apply given_provided in Hp. congruence. Qed.

Lemma Kept_elem_of {A} (P : A → Prop) l kept :
  Kept P l kept → ∀ x, x ∈ kept ↔ x ∈ l ∧ P x.
Proof.
  induction 1 as [|x l kept HP _ IH|x l kept HP _ IH]; intros y.
  - split; [inversion 1|intros [H _]; inversion H].
  - rewrite !elem_of_cons, IH. split.
    + intros [->|[? ?]]; split; auto.
    + intros [[->|?] ?]; auto.
  - rewrite elem_of_cons, IH. split.
    + intros [? ?]; split; auto.
    + intros [[->|?] ?]; [done|auto].
Qed.

Lemma Kept_sublist {A} (P : A → Prop) l kept : Kept P l kept → sublist kept l.
Proof. induction 1; by constructor. Qed.

Section FilterLaws.
Context {rt : PyRuntime}.

Lemma date_cmp_lt_spec e b k :
  date_cmp str_lt e b = Return k →
  ∃ d, date_value e = PStr d ∧ (k = false ↔ lex_le b d).
Proof.
  unfold date_cmp, date_value. destruct (default _ _); try done.
  intros [= <-]. eexists. split; [done|]. apply str_lt_false.
Qed.

Lemma date_cmp_gt_spec e b k :
  date_cmp str_gt e b = Return k →
  ∃ d, date_value e = PStr d ∧ (k = false ↔ lex_le d b).
Proof.
  unfold date_cmp, date_value. destruct (default _ _); try done.
  intros [= <-]. eexists. split; [done|]. apply str_gt_false.
Qed.

Lemma category_test_spec (e : entry) c :
  negb (ne_str (default PNone (e !! "category")) c) = true
  ↔ e !! "category" = Some (PStr c).
Proof.
  destruct (e !! "category") as [[]|]; simpl; try (split; done).
  rewrite negb_involutive, String.eqb_eq. split; congruence.
Qed.

(** The three tests of one turn of the filtering loop, each against the
    bound it stands for. *)
Lemma from_test_spec date_from e early :
  match given date_from with
  | Some b => date_cmp str_lt e b
  | None => Return false
  end = Return early →
  early = false ↔ ∀ b, provided date_from b → ∃ d, date_value e = PStr d ∧ lex_le b d.
Proof.
  destruct (given date_from) as [bf|] eqn:Hf.
  - intros (d & Hd & Hearly)%date_cmp_lt_spec. apply given_provided in Hf.
    rewrite Hearly. split.
    + intros Hle b [Hb _]. destruct Hf as [Hf _].
      assert (b = bf) as -> by congruence. eauto.
    + intros H. destruct (H bf Hf) as (d' & Hd' & Hle). congruence.
  - intros [= <-]. split; [|done]. intros _ b Hb.
    by apply given_None with (b := b) in Hf.
Qed.

Lemma to_test_spec date_to e late :
  match given date_to with
  | Some b => date_cmp str_gt e b
  | None => Return false
  end = Return late →
  late = false ↔ ∀ b, provided date_to b → ∃ d, date_value e = PStr d ∧ lex_le d b.
Proof.
  destruct (given date_to) as [bt|] eqn:Ht.
  - intros (d & Hd & Hlate)%date_cmp_gt_spec. apply given_provided in Ht.
    rewrite Hlate. split.
    + intros Hle b [Hb _]. destruct Ht as [Ht _].
      assert (b = bt) as -> by congruence. eauto.
    + intros H. destruct (H bt Ht) as (d' & Hd' & Hle). congruence.
  - intros [= <-]. split; [|done]. intros _ b Hb.
    by apply given_None with (b := b) in Ht.
Qed.

Lemma category_given_spec category (e : entry) :
  match given category with
  | Some c => negb (ne_str (default PNone (e !! "category")) c)
  | None => true
  end = true
  ↔ ∀ c, provided category c → e !! "category" = Some (PStr c).
Proof.
  destruct (given category) as [c|] eqn:Hc.
  - apply given_provided in Hc. rewrite category_test_spec. split.
    + intros Hcat c' [Hc' _]. destruct Hc as [Hc _]. congruence.
    + intros H. by apply H.
  - split; [|done]. intros _ c Hc'. by apply given_None with (b := c) in Hc.
Qed.

(** One turn of the filtering loop appends the record exactly when every
    provided bound holds of it. *)
Lemma keeps_spec date_from date_to category e k :
  keeps date_from date_to category e = Return k →
  (k = true ↔ bounds_hold date_from date_to category e).
Proof.
  unfold keeps, bounds_hold. simpl.
  destruct (match given date_from with Some b => _ | None => _ end)
    as [early|] eqn:Hfrom; [|done]. simpl.
  apply from_test_spec in Hfrom. rewrite <- Hfrom.
  destruct early.
  { intros [= <-]. split; [done|]. by intros [? _]. }
  destruct (match given date_to with Some b => _ | None => _ end)
    as [late|] eqn:Hto; [|done]. simpl.
  apply to_test_spec in Hto. rewrite <- Hto.
  destruct late.
  { intros [= <-]. split; [done|]. by intros (_ & ? & _). }
  rewrite <- category_given_spec.
  destruct (given category); intros [= <-]; split; try done; by intros (_ & _ & ?).
Qed.

Lemma filter_loop_Kept date_from date_to category data : ∀ kept,
  filter_loop date_from date_to category data = Return kept →
  Kept (bounds_hold date_from date_to category) data kept.
Proof.
  induction data as [|e rest IH]; intros kept; simpl.
  - intros [= <-]. constructor.
  - destruct (keeps date_from date_to category e) as [k|] eqn:Hk; [|done]. simpl.
    destruct (filter_loop date_from date_to category rest) as [tl|]; [|done]. simpl.
    intros [= <-]. apply keeps_spec in Hk. destruct k.
    + apply Kept_take; [by apply Hk|by apply IH].
    + apply Kept_skip; [|by apply IH]. intros H. by apply Hk in H.
Qed.

(** What a GET /entries that returns has computed. *)
Lemma filter_entries_inv date_from date_to category w r :
  (filter_entries date_from date_to category w).1 = Return r →
  ∃ t cats,
    filter_loop date_from date_to category (DATA w) = Return (entries r)
    ∧ sum_loop (entries r) 0%float = Return t
    ∧ categories_loop (entries r) [] = Return cats
    ∧ validate_categories cats = Return (categories r)
    ∧ total r = length (entries r)
    ∧ total_amount r = float_str t.
Proof.
  unfold filter_entries. rewrite !run_bind.
  destruct (match given date_from with Some s => _ | None => false end); [done|].
  rewrite run_ret, run_bind.
  destruct (match given date_to with Some s => _ | None => false end); [done|].
  rewrite run_ret, run_bind. unfold get_DATA, lift. simpl.
  destruct (filter_loop date_from date_to category (DATA w))
    as [filtered|] eqn:Hf; [|done]. simpl.
  destruct (sum_loop filtered 0%float) as [t|] eqn:Ht; [|done]. simpl.
  destruct (categories_loop filtered []) as [cs|] eqn:Hc; [|done]. simpl.
  destruct (validate_categories cs) as [vs|] eqn:Hv; [|done]. simpl.
  intros [= <-]. simpl. by exists t, cs.
Qed.

End FilterLaws.

(** C3. When GET /entries returns, its list holds a record of the Store
    exactly when every provided bound holds of it (date not below
    [date_from], not above [date_to], category equal to the one given),
    and it holds them in the order of the Store. *)
Theorem filter_membership_and_order {rt : PyRuntime}
    date_from date_to category w r :
  (filter_entries date_from date_to category w).1 = Return r →
  Kept (bounds_hold date_from date_to category) (DATA w) (entries r)
  ∧ sublist (entries r) (DATA w)
  ∧ ∀ e, e ∈ entries r ↔ e ∈ DATA w ∧ bounds_hold date_from date_to category e.
Proof.
  intros (t & cs & Hf & _)%filter_entries_inv.
  apply filter_loop_Kept in Hf.
  split; [done|]. split.
  - by apply Kept_sublist in Hf.
  - by apply Kept_elem_of.
Qed.

(** GET /entries for 食費 from 2023-01-20 to 2023-02-28 on the mixed Store. *)
Lemma filter_membership_and_order_witness :
  let r := returned (@filter_entries ref_runtime (Some "2023-01-20") (Some "2023-02-28")
                       (Some "食費") mixed_world).1 in
  (@filter_entries ref_runtime (Some "2023-01-20") (Some "2023-02-28")
     (Some "食費") mixed_world).1 = Return r
  ∧ Kept (bounds_hold (Some "2023-01-20") (Some "2023-02-28") (Some "食費"))
      (DATA mixed_world) (entries r)
  ∧ sublist (entries r) (DATA mixed_world)
  ∧ ∀ e, e ∈ entries r
      ↔ e ∈ DATA mixed_world
        ∧ bounds_hold (Some "2023-01-20") (Some "2023-02-28") (Some "食費") e.
Proof.
  intros r.
  assert (H : (@filter_entries ref_runtime (Some "2023-01-20") (Some "2023-02-28")
                 (Some "食費") mixed_world).1 = Return r).
  { vm_compute. reflexivity. }
  split; [exact H|].
  exact (@filter_membership_and_order ref_runtime _ _ _ _ _ H).
Defined.

(** ** GET /entries: the sums *)

Section SumLaws.
Context {rt : PyRuntime}.

(** What the [try] block adds is the parsed amount. *)
Lemma amount_to_add_parsed e a :
  amount_to_add e = Return a → a = parsed_amount e.
Proof.
  unfold amount_to_add, parsed_amount.
  destruct (default (PInt 0) (e !! "amount")) as [| | | |s| |] eqn:Hv;
    try (intros [= <-]; done);
    try (destruct (py_float _) as [f|[]]; intros [= <-]; done).
  destruct s; [intros [= <-]; done|].
  destruct (py_float _) as [f|[]]; intros [= <-]; done.
Qed.

Lemma sum_loop_spec l : ∀ acc t,
  sum_loop l acc = Return t → t = foldl PrimFloat.add acc (omap parsed_amount l).
Proof.
  induction l as [|e rest IH]; intros acc t; simpl.
  - by intros [= <-].
  - destruct (amount_to_add e) as [a|] eqn:Ha; [|done]. simpl.
    apply amount_to_add_parsed in Ha. subst a.
    destruct (parsed_amount e); simpl; apply IH.
Qed.

Lemma key_eqb_str s k : key_eqb (PStr s) k = true → k = PStr s.
Proof.
  destruct k; simpl; try done.
  intros ->%String.eqb_eq. done.
Qed.

Lemma dict_add_string_keyed k x d :
  string_keyed (dict_add k x d) → string_keyed d ∧ ∃ s, k = PStr s.
Proof.
  unfold string_keyed. induction d as [|[k' v] d' IH]; simpl.
  - intros [Hk _]%Forall_cons. split; [constructor|]. done.
  - destruct (key_eqb k' k) eqn:Hkey.
    + intros [[s Hs] Hd']%Forall_cons. simpl in Hs. subst k'.
      split; [constructor; [by exists s|done]|].
      apply key_eqb_str in Hkey. eauto.
    + intros [Hk' Hd']%Forall_cons. destruct (IH Hd') as [Hall Hk].
      split; [by constructor|done].
Qed.

Lemma dict_get_add s x d c :
  string_keyed d →
  dict_get c (dict_add (PStr s) x d)
  = if String.eqb s c then Some (default 0%float (dict_get c d) + x)%float
    else dict_get c d.
Proof.
  unfold string_keyed, dict_get. induction d as [|[k' v] d' IH]; simpl.
  - intros _. by destruct (String.eqb s c).
  - intros [[k Hk] Hd']%Forall_cons. simpl in Hk. subst k'. simpl.
    destruct (String.eqb_spec k s) as [->|Hne]; simpl.
    + by destruct (String.eqb s c).
    + destruct (String.eqb_spec k c) as [->|Hkc]; simpl.
      * destruct (String.eqb_spec s c) as [->|]; done.
      * apply (IH Hd').
Qed.

Lemma bump_skip c acc e : parsed_amount e = None → bump c acc e = acc.
Proof.
  intros He. unfold bump. rewrite He.
  destruct (category_value e); try done. by destruct (String.eqb _ _).
Qed.

(** The per-category loop, read one category at a time. *)
Lemma categories_loop_spec l : ∀ d d',
  categories_loop l d = Return d' →
  string_keyed d' →
  string_keyed d ∧ ∀ c, dict_get c d' = foldl (bump c) (dict_get c d) l.
Proof.
  induction l as [|e rest IH]; intros d d'; simpl.
  - intros [= <-] Hd. done.
  - destruct (amount_to_add e) as [a|] eqn:Ha; [|done]. simpl.
    apply amount_to_add_parsed in Ha. subst a.
    fold (category_value e).
    destruct (parsed_amount e) as [x|] eqn:Hx.
    + destruct (hashable (category_value e)) eqn:Hh.
      * intros Hrun Hd'. destruct (IH _ _ Hrun Hd') as [Hadd Hget].
        apply dict_add_string_keyed in Hadd as [Hd [s Hs]].
        split; [done|]. intros c. rewrite Hget. f_equal.
        rewrite Hs, dict_get_add by done.
        unfold bump. by rewrite Hs, Hx.
      * intros Hrun Hd'. destruct (IH _ _ Hrun Hd') as [Hd Hget].
        split; [done|]. intros c. rewrite Hget. f_equal.
        unfold bump. by destruct (category_value e).
    + intros Hrun Hd'. destruct (IH _ _ Hrun Hd') as [Hd Hget].
      split; [done|]. intros c. rewrite Hget. f_equal.
      by rewrite bump_skip.
Qed.

Lemma foldl_bump c l : ∀ acc,
  foldl (bump c) acc l
  = match amounts_in c l with
    | [] => acc
    | xs => Some (foldl PrimFloat.add (default 0%float acc) xs)
    end.
Proof.
  induction l as [|e rest IH]; intros acc; [done|].
  change (foldl (bump c) acc (e :: rest)) with (foldl (bump c) (bump c acc e) rest).
  rewrite IH.
  assert (Hcons : amounts_in c (e :: rest)
    = match category_value e with
      | PStr c' =>
          if String.eqb c' c then
            match parsed_amount e with
            | Some x => x :: amounts_in c rest
            | None => amounts_in c rest
            end
          else amounts_in c rest
      | _ => amounts_in c rest
      end).
  { unfold amounts_in. cbn [omap list_omap].
    destruct (category_value e) as [|b|z|f|c'|l'|d']; try done.
    destruct (String.eqb c' c); [|done]. by destruct (parsed_amount e). }
  rewrite Hcons. unfold bump.
  destruct (category_value e) as [|b|z|f|c'|l'|d']; try done.
  destruct (String.eqb c' c); [|done].
  destruct (parsed_amount e) as [x|]; [|done].
  by destruct (amounts_in c rest).
Qed.

Lemma validate_categories_spec d : ∀ vs,
  validate_categories d = Return vs →
  string_keyed d ∧ ∀ c, mapping_get c vs = dict_get c d.
Proof.
  unfold string_keyed, mapping_get, dict_get.
  induction d as [|[k v] d' IH]; intros vs; simpl.
  - intros [= <-]. split; [constructor|done].
  - destruct k; try done.
    destruct (validate_categories d') as [tl|]; [|done]. simpl.
    intros [= <-]. destruct (IH tl eq_refl) as [Hall Hget].
    split; [constructor; [by eexists|done]|].
    intros c. simpl. destruct (String.eqb s c); [done|apply Hget].
Qed.

End SumLaws.

(** C2. When GET /entries returns, [total] counts every matched record,
    [total_amount] is the text of the sum of the amounts that parse, and
    the mapping holds for each category the sum of the amounts that parse
    among its records: a matched record whose amount does not parse is
    counted and listed and adds to neither. *)
Theorem filter_sum_law {rt : PyRuntime} date_from date_to category w r :
  (filter_entries date_from date_to category w).1 = Return r →
  Kept (bounds_hold date_from date_to category) (DATA w) (entries r)
  ∧ total r = length (entries r)
  ∧ total_amount r = float_str (sum_floats (omap parsed_amount (entries r)))
  ∧ ∀ c, mapping_get c (categories r) = category_sum c (entries r).
Proof.
  intros (t & cs & Hf & Hsum & Hcats & Hval & Htotal & Htext)%filter_entries_inv.
  split; [by apply filter_loop_Kept|]. split; [done|]. split.
  - rewrite Htext. f_equal. by apply sum_loop_spec.
  - intros c. apply validate_categories_spec in Hval as [Hkeys Hget].
    destruct (categories_loop_spec _ _ _ Hcats Hkeys) as [_ Hloop].
    rewrite Hget, Hloop, foldl_bump. done.
Qed.

(** GET /entries without filters on the mixed Store, which holds a record
    whose amount does not parse. *)
Lemma filter_sum_law_witness :
  let r := returned (@filter_entries ref_runtime None None None mixed_world).1 in
  (@filter_entries ref_runtime None None None mixed_world).1 = Return r
  ∧ Kept (bounds_hold None None None) (DATA mixed_world) (entries r)
  ∧ total r = length (entries r)
  ∧ total_amount r = @float_str ref_runtime
      (sum_floats (omap (@parsed_amount ref_runtime) (entries r)))
  ∧ ∀ c, mapping_get c (categories r) = @category_sum ref_runtime c (entries r).
Proof.
  intros r.
  assert (H : (@filter_entries ref_runtime None None None mixed_world).1 = Return r).
  { vm_compute. reflexivity. }
  split; [exact H|].
  exact (@filter_sum_law ref_runtime _ _ _ _ _ H).
Defined.

(** ** The order of floats *)






(** ** Sorting the categories *)

Lemma insert_sorted_perm x l : insert_sorted x l ≡ₚ x :: l.
Proof.
  induction l as [|y l' IH]; simpl; [done|].
  destruct (float_ltb y.2 x.2); [|done].
  rewrite IH. apply Permutation_swap.
Qed.

Lemma sorted_by_amount_perm l : sorted_by_amount l ≡ₚ l.
Proof.
  unfold sorted_by_amount. induction l as [|x l' IH]; simpl; [done|].
  by rewrite insert_sorted_perm, IH.
Qed.

Lemma sorted_reverse_perm l : sorted_reverse l ≡ₚ l.
Proof.
  unfold sorted_reverse.
  by rewrite reverse_Permutation, sorted_by_amount_perm, reverse_Permutation.
Qed.





(** ** GET /summary/{year_month} *)

Section SummaryLaws.
Context {rt : PyRuntime}.

(** What a GET /summary that returns has computed. *)
Lemma get_summary_inv year_month w r :
  (get_summary year_month w).1 = Return r →
  ∃ monthly amounts dict,
    monthly_of year_month (DATA w) = Return monthly
    ∧ mapM amount_or_zero monthly = Return amounts
    ∧ summary_categories monthly [] = Return dict
    ∧ r = SummaryResponse year_month (length monthly)
            (total_str (py_sum amounts))
            (category_row_of (py_sum amounts) <$> sorted_reverse dict).
Proof.
  unfold get_summary. rewrite !run_bind.
  destruct (negb _ || negb _); [done|].
  rewrite run_ret, run_bind. unfold get_DATA, lift. simpl.
  destruct (monthly_of year_month (DATA w)) as [monthly|] eqn:Hm; [|done]. simpl.
  destruct (mapM amount_or_zero monthly) as [amounts|] eqn:Ha; [|done]. simpl.
  destruct (summary_categories monthly []) as [dict|] eqn:Hd; [|done]. simpl.
  intros [= <-]. by exists monthly, amounts, dict.
Qed.


End SummaryLaws.




(** ** GET /entries returns on a well-formed Store *)

Section Returns.
Context {rt : PyRuntime}.





Lemma dict_add_keeps_string_keyed s x d :
  string_keyed d → string_keyed (dict_add (PStr s) x d).
Proof.
  unfold string_keyed. induction 1 as [|[k v] d' Hk Hd' IH]; simpl.
  - repeat constructor. by eexists.
  - destruct (key_eqb k (PStr s)); constructor; done.
Qed.




End Returns.

(** ** GET /summary returns on a Store it can take in *)

Section SummaryReturns.
Context {rt : PyRuntime}.

Lemma monthly_of_returns year_month data :
  Forall summable data →
  ∃ monthly, monthly_of year_month data = Return monthly ∧ Forall summable monthly.
Proof.
  induction 1 as [|e rest He _ (tl & Htl & Hwf)]; simpl; [by exists []|].
  pose proof He as ([d Hd] & _). unfold in_month. rewrite Hd. simpl.
  rewrite Htl. simpl. destruct (startswith d year_month); eexists; split; try done.
  by constructor.
Qed.

Lemma amounts_return monthly :
  Forall summable monthly → ∃ amounts, mapM amount_or_zero monthly = Return amounts.
Proof.
  induction 1 as [|e rest (_ & _ & [f Hf]) _ [tl Htl]]; simpl; [by eexists|].
  rewrite Hf. simpl. rewrite Htl. simpl. by eexists.
Qed.

Lemma summary_categories_returns monthly : ∀ d,
  Forall summable monthly → ∃ d', summary_categories monthly d = Return d'.
Proof.
  induction monthly as [|e rest IH]; intros d Hwf; simpl; [by eexists|].
  apply Forall_cons in Hwf as [(_ & (k & Hk & Hh) & [f Hf]) Hrest].
  rewrite Hf. simpl. rewrite Hk, Hh. by apply IH.
Qed.

(** With a [year_month] of seven code points and a hyphen fifth, on a
    Store of such records, GET /summary returns. *)
Lemma get_summary_returns year_month w :
  py_len year_month = 7%nat →
  code_points year_month !! 4%nat = Some "-" →
  Forall summable (DATA w) →
  ∃ r, (get_summary year_month w).1 = Return r.
Proof.
  intros Hlen Hhyphen Hwf. unfold get_summary. rewrite run_bind.
  rewrite Hlen, bool_decide_true by done.
  cbn [Nat.eqb negb orb]. rewrite run_ret, run_bind. unfold get_DATA, lift. simpl.
  destruct (monthly_of_returns year_month _ Hwf) as (monthly & -> & Hm). simpl.
  destruct (amounts_return monthly Hm) as [amounts ->]. simpl.
  destruct (summary_categories_returns monthly [] Hm) as [d' ->]. simpl.
  by eexists.
Qed.

(** An amount that is a non-empty string [float] does not take makes
    GET /summary raise where GET /entries passes the record over. *)
Lemma amount_rejected_by_float (e : entry) s :
  e !! "amount" = Some (PStr s) → s ≠ EmptyString → float_of_str s = None →
  amount_or_zero e = Raise ValueError ∧ amount_to_add e = Return None.
Proof.
  intros He Hs Hfloat. unfold amount_or_zero, amount_to_add. rewrite He. simpl.
  destruct s; [done|]. simpl. by rewrite Hfloat.
Qed.

End SummaryReturns.

(** ** The sample scenario *)

(** C9 (as the code has it). From an empty Store, POST /sample and then
    GET /summary/2023-01 report the three January records, a total of
    9500.0, and 食費 (8300.0, 87.37%) before 交通費 (1200.0, 12.63%). *)
Theorem sample_then_summary_2023_01 :
  (@get_summary ref_runtime "2023-01" (@seed_sample ref_runtime fresh_world).2).1
  = Return (SummaryResponse "2023-01" 3 "9500.0"
      [ CategoryRow (PStr "食費") "8300.0" "87.37";
        CategoryRow (PStr "交通費") "1200.0" "12.63" ]).
Proof. vm_compute. reflexivity. Qed.

(** The same run does not report two entries. *)
Lemma sample_then_summary_not_two_entries :
  ¬ ∃ r,
      (@get_summary ref_runtime "2023-01" (@seed_sample ref_runtime fresh_world).2).1
      = Return r ∧ sr_total_entries r = 2%nat ∧ sr_total_amount r = "9500.0".
Proof.
  intros (r & Hr & Hn & _). vm_compute in Hr. injection Hr as <-. discriminate Hn.
Qed.

(** * Further properties *)

(** ** POST /entries: what a record looks like once stored *)

Section CreateMore.
Context {rt : PyRuntime}.

Lemma lookup_setdefault k v (e : entry) k' :
  setdefault k v e !! k'
  = match e !! k' with
    | Some x => Some x
    | None => if decide (k = k') then Some v else None
    end.
Proof.
  unfold setdefault. destruct (e !! k) as [x|] eqn:Hk.
  - destruct (e !! k') as [y|] eqn:Hk'; [done|].
    destruct (decide (k = k')) as [->|]; [congruence|done].
  - destruct (decide (k = k')) as [<-|Hne].
    + by rewrite lookup_insert_eq, Hk.
    + rewrite lookup_insert_ne by done. by destruct (e !! k').
Qed.

Lemma prepare_keeps u (e : entry) k v : e !! k = Some v → prepare u e !! k = Some v.
Proof.
  intros He. unfold prepare, fill_defaults.
  by rewrite !lookup_setdefault, He.
Qed.

Lemma prepare_fills u (e : entry) :
  (e !! "id" = None → prepare u e !! "id" = Some (PStr u))
  ∧ (e !! "category" = None → prepare u e !! "category" = Some (PStr UNCATEGORIZED))
  ∧ (e !! "description" = None → prepare u e !! "description" = Some (PStr EmptyString)).
Proof.
  unfold prepare, fill_defaults. repeat split; intros He;
    rewrite !lookup_setdefault, He; done.
Qed.

Lemma prepare_complete u (e : entry) : required_missing e = false → complete (prepare u e).
Proof.
  intros He. unfold complete. split.
  - rewrite <- He. unfold required_missing, py_not_get.
    by rewrite !prepare_lookup.
  - destruct (prepare_fills u e) as (Hid & Hcat & Hdesc).
    repeat split.
    + destruct (e !! "id") as [v|] eqn:H; [|by rewrite Hid].
      by rewrite (prepare_keeps u e _ v).
    + destruct (e !! "category") as [v|] eqn:H; [|by rewrite Hcat].
      by rewrite (prepare_keeps u e _ v).
    + destruct (e !! "description") as [v|] eqn:H; [|by rewrite Hdesc].
      by rewrite (prepare_keeps u e _ v).
Qed.


(** X2. POST /entries answers with its success or with the 400 and with
    nothing else, and whichever it is, the Store afterwards is a tail of
    the old Store followed by records of the batch: stored records are
    never rewritten or reordered. *)
Theorem create_never_rewrites batch w :
  let out := create_entries batch w in
  ((∃ r, out.1 = Return r) ∨ out.1 = Raise (HTTPException 400 MSG_REQUIRED))
  ∧ ∃ k new, DATA out.2 = drop k (DATA w) ++ new
      ∧ sublist new (prepared (uuid_drawn w) batch).
Proof.
  intros out. subst out.
  destruct (first_invalid batch) as [Hall|(pre & bad & post & -> & Hpre & Hbad)].
  - rewrite (create_entries_ok batch w Hall). cbn [fst snd DATA].
    split; [left; eauto|]. unfold newest.
    set (k := (length (DATA w ++ prepared (uuid_drawn w) batch) - Z.to_nat MAX_ENTRIES)%nat).
    exists k, (drop (k - length (DATA w)) (prepared (uuid_drawn w) batch)). split.
    + by rewrite drop_app.
    + apply sublist_drop.
  - rewrite (create_entries_fail pre bad post w Hpre Hbad). cbn [fst snd DATA].
    split; [by right|].
    exists 0%nat, (prepared (uuid_drawn w) pre). split; [done|].
    rewrite prepared_app. by apply sublist_inserts_r.
Qed.

(** X3. An empty batch is a create like any other: it succeeds with
    nothing created, and it trims a Store that had grown past the bound
    back to its newest 10,000 records. *)
Theorem create_empty_batch_trims w :
  create_entries [] w
  = (Return (CreatedResponse "success" 0 []),
     World (newest (Z.to_nat MAX_ENTRIES) (DATA w)) (uuid_drawn w))
  ∧ Z.of_nat (length (DATA (create_entries [] (seed_sample w).2).2)) ≤ MAX_ENTRIES.
Proof.
  assert (H : ∀ w', create_entries [] w'
    = (Return (CreatedResponse "success" 0 []),
       World (newest (Z.to_nat MAX_ENTRIES) (DATA w')) (uuid_drawn w'))).
  { intros w'. rewrite (create_entries_ok [] w') by constructor.
    cbn [prepared length]. by rewrite app_nil_r, Nat.add_0_r. }
  split; [apply H|].
  rewrite H. cbn [snd DATA]. unfold newest, MAX_ENTRIES. rewrite length_drop. lia.
Qed.

End CreateMore.

(** ** GET /entries: ranges, narrowing and the mapping's keys *)

Lemma lex_le_trans a : ∀ b c, lex_le a b → lex_le b c → lex_le a c.
Proof.
  induction a as [|x a' IH]; intros b c Hab Hbc; [constructor|].
  inversion Hab as [|? ? y b' Hxy|? ? b' Hab']; subst;
    inversion Hbc as [|? ? z c' Hyz|? ? c' Hbc']; subst.
  - apply lex_le_below. lia.
  - by apply lex_le_below.
  - by apply lex_le_below.
  - apply lex_le_same. by eapply IH.
Qed.

Lemma Kept_none {A} (P : A → Prop) l kept :
  (∀ x, x ∈ l → ¬ P x) → Kept P l kept → kept = [].
Proof.
  intros Hnone. induction 1 as [|x l kept HP _ _|x l kept _ _ IH]; [done| |].
  - exfalso. apply (Hnone x); [by left|done].
  - apply IH. intros y Hy. apply Hnone. by right.
Qed.

Lemma Kept_iff {A} (P Q : A → Prop) l kept :
  (∀ x, P x ↔ Q x) → Kept P l kept → Kept Q l kept.
Proof.
  intros HPQ. induction 1; [constructor| |].
  - apply Kept_take; [by apply HPQ|done].
  - apply Kept_skip; [by rewrite <- HPQ|done].
Qed.

Lemma Kept_narrow {A} (P Q : A → Prop) l : ∀ wide narrow,
  Kept P l wide → Kept (λ x, P x ∧ Q x) l narrow → Kept Q wide narrow.
Proof.
  induction l as [|x l IH]; intros wide narrow Hw Hn.
  - inversion Hw; inversion Hn; subst. constructor.
  - inversion Hw as [|? ? w' HP Hw'|? ? w' HP Hw']; subst;
      inversion Hn as [|? ? n' HPQ Hn'|? ? n' HPQ Hn']; subst.
    + apply Kept_take; [by destruct HPQ|by apply IH].
    + apply Kept_skip; [|by apply IH]. intros HQ. by apply HPQ.
    + by destruct HPQ.
    + by apply IH.
Qed.

Section FilterMore.
Context {rt : PyRuntime}.

(** The summary of an empty list of matches. *)
Lemma filter_entries_no_match date_from date_to category w r :
  (filter_entries date_from date_to category w).1 = Return r →
  entries r = [] →
  r = mkEntrySummary 0 (float_str 0%float) [] [].
Proof.
  intros (t & cs & _ & Hsum & Hcats & Hval & Htotal & Htext)%filter_entries_inv Hnil.
  rewrite Hnil in *. simpl in *.
  injection Hsum as <-. injection Hcats as <-. simpl in Hval. injection Hval as Hval.
  destruct r as [n txt cats es]. simpl in *. by subst.
Qed.

(** X4. When the provided [date_to] is below the provided [date_from], a
    GET /entries that returns matches nothing: no entries, a total of 0
    and of [str(0.0)], and an empty mapping. *)
Theorem filter_inverted_range_is_empty date_from date_to category w r bf bt :
  provided date_from bf → provided date_to bt → ¬ lex_le bf bt →
  (filter_entries date_from date_to category w).1 = Return r →
  r = mkEntrySummary 0 (float_str 0%float) [] [].
Proof.
  intros Hf Ht Hinv Hrun.
  apply (filter_entries_no_match _ _ _ _ _ Hrun).
  pose proof Hrun as (t & cs & Hloop & _)%filter_entries_inv.
  apply filter_loop_Kept in Hloop.
  apply (Kept_none _ _ _) in Hloop; [done|].
  intros e _ (Hfrom & Hto & _).
  destruct (Hfrom bf Hf) as (d & Hd & Hle1).
  destruct (Hto bt Ht) as (d' & Hd' & Hle2).
  assert (d' = d) as -> by congruence.
  apply Hinv. by apply (lex_le_trans bf d bt).
Qed.

Lemma bounds_hold_category date_from date_to c e :
  c ≠ EmptyString →
  bounds_hold date_from date_to (Some c) e
  ↔ bounds_hold date_from date_to None e ∧ e !! "category" = Some (PStr c).
Proof.
  intros Hc. unfold bounds_hold. split.
  - intros (H1 & H2 & H3). repeat split; try done.
    + by intros c' [? _].
    + by apply H3.
  - intros ((H1 & H2 & _) & H3). repeat split; try done.
    intros c' [[= <-] _]. done.
Qed.

(** X5. Adding a category to a GET /entries narrows its result and does
    nothing else: the list for the date bounds and the category is the
    list for the date bounds alone, cut down to the records of that
    category, in the same order. *)
Theorem filter_category_narrows date_from date_to c w r_all r_c :
  c ≠ EmptyString →
  (filter_entries date_from date_to None w).1 = Return r_all →
  (filter_entries date_from date_to (Some c) w).1 = Return r_c →
  Kept (λ e, e !! "category" = Some (PStr c)) (entries r_all) (entries r_c)
  ∧ sublist (entries r_c) (entries r_all)
  ∧ (total r_c ≤ total r_all)%nat.
Proof.
  intros Hc (t1 & cs1 & Hall & _ & _ & _ & Hn1 & _)%filter_entries_inv
          (t2 & cs2 & Hcat & _ & _ & _ & Hn2 & _)%filter_entries_inv.
  apply filter_loop_Kept in Hall, Hcat.
  assert (Hk : Kept (λ e, e !! "category" = Some (PStr c)) (entries r_all) (entries r_c)).
  { eapply Kept_narrow; [exact Hall|].
    eapply Kept_iff; [|exact Hcat]. intros e. by apply bounds_hold_category. }
  split; [done|]. split; [by apply Kept_sublist in Hk|].
  rewrite Hn1, Hn2. apply sublist_length. by apply Kept_sublist in Hk.
Qed.

End FilterMore.

Section MappingKeys.
Context {rt : PyRuntime}.

Lemma dict_keys_cons k v d : dict_keys ((PStr k, v) :: d) = k :: dict_keys d.
Proof. reflexivity. Qed.

Lemma dict_keys_add s x d :
  string_keyed d →
  dict_keys (dict_add (PStr s) x d)
  = if decide (s ∈ dict_keys d) then dict_keys d else dict_keys d ++ [s].
Proof.
  induction 1 as [|[k v] d' [k0 Hk] _ IH].
  - rewrite decide_False; [done|]. by intros ?%elem_of_nil.
  - simpl in Hk. subst k. cbn [dict_add key_eqb].
    destruct (String.eqb_spec k0 s) as [->|Hne].
    + rewrite !dict_keys_cons. rewrite decide_True; [done|]. by left.
    + rewrite !dict_keys_cons, IH. destruct (decide (s ∈ dict_keys d')) as [Hin|Hnin].
      * rewrite decide_True; [done|]. by right.
      * rewrite decide_False; [done|]. intros [?|?]%elem_of_cons; done.
Qed.

Lemma dict_keys_add_NoDup s x d :
  string_keyed d → NoDup (dict_keys d) → NoDup (dict_keys (dict_add (PStr s) x d)).
Proof.
  intros Hd Hnd. rewrite dict_keys_add by done.
  destruct (decide (s ∈ dict_keys d)); [done|].
  apply NoDup_app. split; [done|]. split; [|apply NoDup_singleton].
  intros y Hy ->%list_elem_of_singleton. done.
Qed.

Lemma categories_loop_NoDup l : ∀ d d',
  categories_loop l d = Return d' → string_keyed d' →
  NoDup (dict_keys d) → NoDup (dict_keys d').
Proof.
  induction l as [|e rest IH]; intros d d'; simpl.
  - by intros [= <-].
  - destruct (amount_to_add e) as [[x|]|]; simpl; [|by apply IH|done].
    fold (category_value e). destruct (hashable (category_value e)); [|by apply IH].
    intros Hrun Hd' Hnd.
    destruct (categories_loop_spec _ _ _ Hrun Hd') as [Hadd _].
    pose proof Hadd as [Hd [s Hs]]%dict_add_string_keyed.
    apply (IH _ _ Hrun Hd'). rewrite Hs. by apply dict_keys_add_NoDup.
Qed.

Lemma validate_categories_keys d : ∀ vs,
  validate_categories d = Return vs → vs.*1 = dict_keys d.
Proof.
  unfold dict_keys. induction d as [|[k v] d' IH]; intros vs; simpl.
  - by intros [= <-].
  - destruct k; try done.
    destruct (validate_categories d') as [tl|]; [|done]. simpl.
    intros [= <-]. simpl. f_equal. by apply IH.
Qed.

Lemma mapping_get_is_Some c (m : list (string * float)) :
  is_Some (mapping_get c m) ↔ c ∈ m.*1.
Proof.
  unfold mapping_get. induction m as [|[k v] m' IH]; simpl.
  - split; [by intros [? ?]|by intros ?%elem_of_nil].
  - destruct (String.eqb_spec k c) as [->|Hne]; simpl.
    + split; [intros _; by left|by eexists].
    + rewrite IH. split; [by right|]. by intros [?|?]%elem_of_cons.
Qed.

Lemma amounts_in_nonempty c l :
  amounts_in c l ≠ []
  ↔ ∃ e, e ∈ l ∧ category_value e = PStr c ∧ is_Some (parsed_amount e).
Proof.
  unfold amounts_in. induction l as [|e rest IH].
  - split; [done|]. by intros (e & ?%elem_of_nil & _).
  - cbn [omap list_omap].
    destruct (category_value e) as [|b|z|f|c'|l'|d'] eqn:Hcat;
      try (rewrite IH; split;
           [intros (e' & ? & ?); exists e'; split; [by right|done]
           |intros (e' & [->|?]%elem_of_cons & Hc & ?);
              [congruence|exists e'; by split]]).
    destruct (String.eqb_spec c' c) as [->|Hne].
    + destruct (parsed_amount e) as [x|] eqn:Hx.
      * split; [|done]. intros _. exists e. split; [by left|]. by rewrite Hx.
      * rewrite IH. split.
        -- intros (e' & ? & ?). exists e'. split; [by right|done].
        -- intros (e' & [->|?]%elem_of_cons & Hc & Hp).
           ++ rewrite Hx in Hp. by destruct Hp.
           ++ exists e'. by split.
    + rewrite IH. split.
      * intros (e' & ? & ?). exists e'. split; [by right|done].
      * intros (e' & [->|?]%elem_of_cons & Hc & Hp).
        -- congruence.
        -- exists e'. by split.
Qed.

(** X6. The mapping a GET /entries returns has no category twice; its
    keys are exactly the categories of the matched records whose amount
    parses; and when a category is asked for, the mapping is empty or has
    that one key. *)
Theorem filter_mapping_keys date_from date_to category w r :
  (filter_entries date_from date_to category w).1 = Return r →
  NoDup (categories r).*1
  ∧ (∀ c, c ∈ (categories r).*1
      ↔ ∃ e, e ∈ entries r ∧ category_value e = PStr c ∧ is_Some (parsed_amount e))
  ∧ (∀ c, provided category c →
      (categories r).*1 = [] ∨ (categories r).*1 = [c]).
Proof.
  intros Hrun.
  pose proof Hrun as (t & cs & Hf & _ & Hcats & Hval & _)%filter_entries_inv.
  pose proof Hval as [Hkeys Hget]%validate_categories_spec.
  destruct (categories_loop_spec _ _ _ Hcats Hkeys) as [_ Hloop].
  assert (Hnd : NoDup (categories r).*1).
  { rewrite (validate_categories_keys _ _ Hval).
    apply (categories_loop_NoDup _ _ _ Hcats Hkeys). constructor. }
  assert (Hiff : ∀ c, c ∈ (categories r).*1
      ↔ ∃ e, e ∈ entries r ∧ category_value e = PStr c ∧ is_Some (parsed_amount e)).
  { intros c. rewrite <- mapping_get_is_Some, Hget, Hloop, foldl_bump.
    rewrite <- amounts_in_nonempty. simpl.
    destruct (amounts_in c (entries r)); split; try done;
      first [by intros [? ?]|by eexists]. }
  split; [done|]. split; [done|].
  intros c Hc. apply filter_loop_Kept in Hf.
  assert (Hall : ∀ k, k ∈ (categories r).*1 → k = c).
  { intros k (e & He & Hcat & _)%Hiff.
    apply (Kept_elem_of _ _ _ Hf) in He as [_ (_ & _ & Hb)].
    specialize (Hb c Hc). unfold category_value in Hcat. rewrite Hb in Hcat.
    simpl in Hcat. congruence. }
  destruct ((categories r).*1) as [|k1 [|k2 ks]]; [by left| |].
  - right. f_equal. apply Hall. by left.
  - exfalso. apply NoDup_cons in Hnd as [Hnotin _].
    apply Hnotin.
    assert (k1 = c) as -> by (apply Hall; by left).
    assert (k2 = c) as -> by (apply Hall; right; by left).
    by left.
Qed.

End MappingKeys.

(** ** GET /entries: how it fails *)

Section FilterErrors.
Context {rt : PyRuntime}.

Lemma py_float_raise v x :
  py_float v = Raise x → x = TypeError ∨ x = ValueError ∨ x = OverflowError.
Proof.
  destruct v; simpl; try (intros [= <-]; auto); try done.
  - unfold float_of_int. destruct (is_infinity _); [|done]. intros [= <-]. auto.
  - destruct (float_of_str s); [done|]. intros [= <-]. auto.
Qed.


Lemma keeps_raise date_from date_to category e x :
  keeps date_from date_to category e = Raise x → x = TypeError.
Proof.
  assert (Hcmp : ∀ cmp b y, date_cmp cmp e b = Raise y → y = TypeError).
  { intros cmp b y. unfold date_cmp. destruct (default _ _); try done; by intros [= <-]. }
  unfold keeps. simpl.
  destruct (given date_from) as [bf|]; simpl.
  - destruct (date_cmp str_lt e bf) as [[]|y] eqn:H1; simpl; [done| |].
    + destruct (given date_to) as [bt|]; simpl; [|by destruct (given category)].
      destruct (date_cmp str_gt e bt) as [[]|y] eqn:H2; simpl; [done| |].
      * by destruct (given category).
      * intros [= <-]. by eapply Hcmp.
    + intros [= <-]. by eapply Hcmp.
  - destruct (given date_to) as [bt|]; simpl; [|by destruct (given category)].
    destruct (date_cmp str_gt e bt) as [[]|y] eqn:H2; simpl; [done| |].
    + by destruct (given category).
    + intros [= <-]. by eapply Hcmp.
Qed.





(** The checks of the two date parameters, as one case distinction. *)
Lemma filter_entries_cases date_from date_to category w :
  (malformed_date date_from
   ∧ (filter_entries date_from date_to category w).1
     = Raise (HTTPException 400 "date_from must be in YYYY-MM-DD format"))
  ∨ (well_formed_date date_from ∧ malformed_date date_to
     ∧ (filter_entries date_from date_to category w).1
       = Raise (HTTPException 400 "date_to must be in YYYY-MM-DD format"))
  ∨ (well_formed_date date_from ∧ well_formed_date date_to
     ∧ (filter_entries date_from date_to category w).1
       = (filtered_entries ← filter_loop date_from date_to category (DATA w);
          total_amount ← sum_loop filtered_entries 0%float;
          categories ← categories_loop filtered_entries [];
          categories ← validate_categories categories;
          Return (mkEntrySummary (length filtered_entries) (float_str total_amount)
                    categories filtered_entries))).
Proof.
  assert (Hcase : ∀ p,
    (malformed_date p
     ∧ match given p with Some s => negb (_is_valid_date_format s) | None => false end = true)
    ∨ (well_formed_date p
     ∧ match given p with Some s => negb (_is_valid_date_format s) | None => false end = false)).
  { intros p. destruct (given p) as [s|] eqn:Hg.
    - destruct (_is_valid_date_format s) eqn:Hv; [right|left]; split; try done.
      + intros s' Hs'. apply given_provided in Hs'. congruence.
      + exists s. split; [by apply given_provided|done].
    - right. split; [|done]. intros s Hs. by apply given_None with (b := s) in Hg. }
  unfold filter_entries. rewrite !run_bind.
  destruct (Hcase date_from) as [[Hbad ->]|[Hok ->]]; [by left|].
  rewrite run_ret, run_bind.
  destruct (Hcase date_to) as [[Hbad ->]|[Hok2 ->]]; [right; by left|].
  rewrite run_ret, run_bind. right. right. done.
Qed.

Lemma well_formed_not_malformed p : well_formed_date p → ¬ malformed_date p.
Proof. intros Hok (s & Hs & Hbad). rewrite (Hok s Hs) in Hbad. done. Qed.


Lemma keeps_nontext date_from date_to category e b :
  provided date_from b ∨ provided date_to b →
  (∀ d, date_value e ≠ PStr d) →
  keeps date_from date_to category e = Raise TypeError.
Proof.
  intros Hb Hdate.
  assert (Hcmp : ∀ cmp b', date_cmp cmp e b' = Raise TypeError).
  { intros cmp b'. unfold date_cmp. fold (date_value e).
    destruct (date_value e) eqn:Hv; try done. by destruct (Hdate s). }
  unfold keeps. simpl.
  destruct (given date_from) as [bf|] eqn:Hf; simpl; [by rewrite Hcmp|].
  destruct (given date_to) as [bt|] eqn:Ht; simpl; [by rewrite Hcmp|].
  destruct Hb as [Hb|Hb]; apply given_provided in Hb; congruence.
Qed.

(** X8. With a date bound provided, a record in the Store whose date is
    no string makes GET /entries fail with [TypeError], a 500, wherever
    the record stands and whatever the other parameters are. *)
Theorem filter_fails_on_nontext_date date_from date_to category w b :
  well_formed_date date_from → well_formed_date date_to →
  provided date_from b ∨ provided date_to b →
  Exists (λ e, ∀ d, date_value e ≠ PStr d) (DATA w) →
  (filter_entries date_from date_to category w).1 = Raise TypeError
  ∧ status_of (filter_entries date_from date_to category w).1 = 500.
Proof.
  intros Hok1 Hok2 Hb Hex.
  assert (Hloop : filter_loop date_from date_to category (DATA w) = Raise TypeError).
  { induction Hex as [e rest He|e rest _ IH]; simpl.
    - by rewrite (keeps_nontext _ _ _ e b Hb He).
    - destruct (keeps date_from date_to category e) as [k|y] eqn:Hk; simpl.
      + by rewrite IH.
      + by apply keeps_raise in Hk as ->. }
  destruct (filter_entries_cases date_from date_to category w)
    as [[Hbad _]|[(_ & Hbad & _)|(_ & _ & ->)]].
  - by apply well_formed_not_malformed in Hok1.
  - by apply well_formed_not_malformed in Hok2.
  - rewrite Hloop. done.
Qed.

End FilterErrors.

(** ** GET /summary: the month, its count and its failures *)

Lemma startswith_spec d : ∀ pre, startswith d pre = true ↔ ∃ rest, d = pre +:+ rest.
Proof.
  unfold startswith. induction d as [|b d' IH]; intros [|a pre']; simpl.
  - split; [by exists EmptyString|done].
  - split; [done|]. by intros [rest ?].
  - split; [|done]. intros _. by eexists.
  - destruct (Ascii.ascii_dec a b) as [->|Hne].
    + rewrite IH.
      split; intros [rest Hrest]; exists rest;
        change (String b pre' +:+ rest) with (String b (pre' +:+ rest)) in *;
        congruence.
    + split; [done|]. intros [rest Hrest].
      change (String a pre' +:+ rest) with (String a (pre' +:+ rest)) in Hrest.
      congruence.
Qed.

Section SummaryMore.
Context {rt : PyRuntime}.

Lemma in_month_spec year_month e k :
  in_month year_month e = Return k → (k = true ↔ date_starts_with year_month e).
Proof.
  unfold in_month, date_starts_with.
  destruct (e !! "date") as [[| | | |d| |]|]; try done.
  intros [= <-]. rewrite startswith_spec. split.
  - intros [rest ->]. by exists rest.
  - intros [rest [= ->]]. by exists rest.
Qed.

Lemma monthly_of_Kept year_month data : ∀ monthly,
  monthly_of year_month data = Return monthly →
  Kept (date_starts_with year_month) data monthly.
Proof.
  induction data as [|e rest IH]; intros monthly; simpl.
  - intros [= <-]. constructor.
  - destruct (in_month year_month e) as [k|] eqn:Hk; [|done]. simpl.
    destruct (monthly_of year_month rest) as [tl|]; [|done]. simpl.
    intros [= <-]. apply in_month_spec in Hk. destruct k.
    + apply Kept_take; [by apply Hk|by apply IH].
    + apply Kept_skip; [|by apply IH]. intros H. by apply Hk in H.
Qed.

(** The check of [year_month], as a case distinction. *)
Lemma get_summary_cases year_month w :
  (¬ year_month_shaped year_month
   ∧ (get_summary year_month w).1 = Raise (HTTPException 400 MSG_YEAR_MONTH))
  ∨ (year_month_shaped year_month
     ∧ (get_summary year_month w).1
       = (monthly ← monthly_of year_month (DATA w);
          amounts ← mapM amount_or_zero monthly;
          categories ← summary_categories monthly [];
          Return (SummaryResponse year_month (length monthly)
                    (total_str (py_sum amounts))
                    (category_row_of (py_sum amounts) <$> sorted_reverse categories)))).
Proof.
  unfold get_summary, year_month_shaped. rewrite run_bind.
  destruct (Nat.eqb_spec (py_len year_month) 7) as [Hlen|Hlen];
    destruct (bool_decide_reflect (code_points year_month !! 4%nat = Some "-"))
      as [Hh|Hh]; cbn [negb orb].
  - right. split; [done|]. by rewrite run_ret, run_bind.
  - left. split; [by intros [_ ?]|done].
  - left. split; [by intros [? _]|done].
  - left. split; [by intros [? _]|done].
Qed.

(** X9. When GET /summary returns, it echoes [year_month] and its
    [total_entries] is the number of records of the Store whose date
    starts with [year_month]: the records are taken by prefix, in the
    order of the Store, and each is counted whatever its amount. *)
Theorem summary_counts_the_month year_month w r :
  (get_summary year_month w).1 = Return r →
  sr_year_month r = year_month
  ∧ ∃ monthly,
      Kept (date_starts_with year_month) (DATA w) monthly
      ∧ sr_total_entries r = length monthly
      ∧ ∀ e, e ∈ monthly ↔ e ∈ DATA w ∧ date_starts_with year_month e.
Proof.
  intros (monthly & amounts & dict & Hm & _ & _ & ->)%get_summary_inv.
  split; [done|]. exists monthly. apply monthly_of_Kept in Hm.
  split; [done|]. split; [done|]. by apply Kept_elem_of.
Qed.

(** X10. A month no record falls in is reported with no entries, no
    categories, and the total ["0"]: the text of the int 0 that summing
    nothing gives, not of a float. *)
Theorem summary_of_an_empty_month year_month w :
  year_month_shaped year_month →
  Forall (λ e, ∃ d, e !! "date" = Some (PStr d)) (DATA w) →
  (∀ e, e ∈ DATA w → ¬ date_starts_with year_month e) →
  (get_summary year_month w).1 = Return (SummaryResponse year_month 0 "0" []).
Proof.
  intros Hshape Hdates Hnone.
  destruct (get_summary_cases year_month w) as [[Hbad _]|[_ ->]]; [done|].
  assert (Hm : monthly_of year_month (DATA w) = Return []).
  { induction Hdates as [|e rest [d Hd] _ IH]; simpl; [done|].
    rewrite IH by (intros e' He'; apply Hnone; by right).
    destruct (in_month year_month e) as [k|] eqn:Hk;
      [|unfold in_month in Hk; by rewrite Hd in Hk].
    simpl. destruct k; [|done].
    exfalso. apply (Hnone e); [by left|]. by apply (in_month_spec _ _ _ Hk). }
  rewrite Hm. done.
Qed.

(** X11. GET /summary answers 400 exactly when [year_month] does not have
    seven code points with a hyphen fifth; the digits are not looked at,
    and the Store plays no part. *)
Theorem summary_rejects_misshapen_months year_month w :
  status_of (get_summary year_month w).1 = 400 ↔ ¬ year_month_shaped year_month.
Proof.
  destruct (get_summary_cases year_month w) as [[Hbad ->]|[Hok ->]].
  - split; [done|]. done.
  - split; [|done]. intros Hstatus. exfalso. revert Hstatus.
    destruct (monthly_of year_month (DATA w)) as [monthly|x] eqn:Hm; simpl.
    + destruct (mapM amount_or_zero monthly) as [amounts|x] eqn:Ha; simpl.
      * destruct (summary_categories monthly []) as [dict|x] eqn:Hd; simpl; [done|].
        assert (Hx : ∀ l d, summary_categories l d = Raise x →
                  ∀ c detail, x ≠ HTTPException c detail).
        { clear. induction l as [|e rest IH]; intros d; simpl; [done|].
          destruct (amount_or_zero e) as [f|y] eqn:Hf; simpl.
          - destruct (e !! "category") as [k|]; [|by intros [= <-]].
            destruct (hashable k); [apply IH|by intros [= <-]].
          - intros [= <-] c detail ->.
            unfold amount_or_zero in Hf.
            apply py_float_raise in Hf as [? | [? | ?]]; done. }
        destruct x; try done. by destruct (Hx _ _ Hd status_code detail).
      * assert (Hx : ∀ l, mapM amount_or_zero l = Raise x →
                  ∀ c detail, x ≠ HTTPException c detail).
        { clear. induction l as [|e rest IH]; simpl; [done|].
          destruct (amount_or_zero e) as [f|y] eqn:Hf; simpl.
          - destruct (mapM amount_or_zero rest); simpl; [done|].
            intros [= <-]. by apply IH.
          - intros [= <-] c detail ->.
            unfold amount_or_zero in Hf.
            apply py_float_raise in Hf as [? | [? | ?]]; done. }
        destruct x; try done. by destruct (Hx _ Ha status_code detail).
    + assert (Hx : ∀ l, monthly_of year_month l = Raise x →
                x = KeyError ∨ x = AttributeError).
      { clear. induction l as [|e rest IH]; simpl; [done|].
        destruct (in_month year_month e) as [k|y] eqn:Hk; simpl.
        - destruct (monthly_of year_month rest); simpl; [done|].
          intros [= <-]. by apply IH.
        - intros [= <-]. unfold in_month in Hk.
          destruct (e !! "date") as [[]|]; try done; injection Hk as <-; auto. }
      by destruct (Hx _ Hm) as [-> | ->].
Qed.

(** X12. A record whose date is present and no string makes GET /summary
    fail with [AttributeError], a 500, for every well-shaped month,
    whether or not the record would belong to it. *)
Theorem summary_fails_on_nontext_date year_month w :
  year_month_shaped year_month →
  Forall (λ e, is_Some (e !! "date")) (DATA w) →
  Exists date_not_text (DATA w) →
  (get_summary year_month w).1 = Raise AttributeError
  ∧ status_of (get_summary year_month w).1 = 500.
Proof.
  intros Hshape Hall Hex.
  destruct (get_summary_cases year_month w) as [[Hbad _]|[_ ->]]; [done|].
  assert (Hm : monthly_of year_month (DATA w) = Raise AttributeError).
  { induction Hex as [e rest (v & Hv & Hnot)|e rest _ IH]; simpl.
    - unfold in_month. rewrite Hv. destruct v; try done. by destruct (Hnot s).
    - apply Forall_cons in Hall as [[v Hv] Hrest].
      unfold in_month. rewrite Hv.
      destruct v; simpl; try done. by rewrite (IH Hrest). }
  by rewrite Hm.
Qed.

(** X13. A record of the month whose amount [float] refuses makes
    GET /summary fail with a 500: the summary has no [try] around the
    conversion. *)
Theorem summary_fails_on_refused_amount year_month w :
  year_month_shaped year_month →
  Forall (λ e, ∃ d, e !! "date" = Some (PStr d)) (DATA w) →
  Exists (λ e, date_starts_with year_month e ∧ ∃ x, amount_or_zero e = Raise x)
    (DATA w) →
  ∃ x, (get_summary year_month w).1 = Raise x
    ∧ status_of (get_summary year_month w).1 = 500.
Proof.
  intros Hshape Hdates Hex.
  destruct (get_summary_cases year_month w) as [[Hbad _]|[_ ->]]; [done|].
  assert (Hm : ∃ monthly, monthly_of year_month (DATA w) = Return monthly
                ∧ Exists (λ e, ∃ x, amount_or_zero e = Raise x) monthly).
  { induction Hex as [e rest [Hin Hamt]|e rest _ IH]; simpl.
    - apply Forall_cons in Hdates as [[d Hd] Hrest].
      assert (Hk : in_month year_month e = Return true).
      { destruct (in_month year_month e) as [k|] eqn:Hk;
          [|unfold in_month in Hk; by rewrite Hd in Hk].
        f_equal. by apply (in_month_spec _ _ _ Hk). }
      rewrite Hk. simpl.
      assert (∃ tl, monthly_of year_month rest = Return tl) as [tl ->].
      { clear -Hrest. induction Hrest as [|e' rest' [d' Hd'] _ [tl IH]]; simpl.
        - by eexists.
        - unfold in_month. rewrite Hd'. simpl. rewrite IH. simpl. by eexists. }
      simpl. eexists. split; [done|]. by left.
    - apply Forall_cons in Hdates as [[d Hd] Hrest].
      destruct (IH Hrest) as (tl & -> & Htl).
      unfold in_month. rewrite Hd. simpl.
      destruct (startswith d year_month); eexists; split; try done. by right. }
  destruct Hm as (monthly & -> & Hbad). simpl.
  assert (Ha : ∃ x, mapM amount_or_zero monthly = Raise x
                ∧ ∀ c detail, x ≠ HTTPException c detail).
  { induction Hbad as [e rest [x Hx]|e rest _ (x & IH & Hne)]; simpl.
    - rewrite Hx. simpl. exists x. split; [done|]. intros c detail ->.
      unfold amount_or_zero in Hx. apply py_float_raise in Hx as [? | [? | ?]]; done.
    - destruct (amount_or_zero e) as [f|y] eqn:Hf; simpl.
      + rewrite IH. simpl. by exists x.
      + exists y. split; [done|]. intros c detail ->.
        unfold amount_or_zero in Hf. apply py_float_raise in Hf as [? | [? | ?]]; done. }
  destruct Ha as (x & -> & Hne). simpl. exists x. split; [done|].
  destruct x; try done. by destruct (Hne status_code detail).
Qed.

End SummaryMore.

(** ** GET /summary: the rows *)

Section SummaryRows.
Context {rt : PyRuntime}.

Lemma dict_get_Some c d v :
  dict_get c d = Some v → (PStr c, v) ∈ d.
Proof.
  unfold dict_get. induction d as [|[k v'] d' IH]; simpl; [done|].
  destruct k as [| | | |k| |]; simpl; try (intros H; right; by apply IH).
  destruct (String.eqb_spec k c) as [->|Hne]; simpl.
  - intros [= <-]. by left.
  - intros H. right. by apply IH.
Qed.

Lemma dict_get_elem c d v :
  NoDup (dict_keys d) → (PStr c, v) ∈ d → dict_get c d = Some v.
Proof.
  induction d as [|[k v'] d' IH]; intros Hnd Hin; [by apply elem_of_nil in Hin|].
  apply elem_of_cons in Hin as [[= <- <-]|Hin].
  - unfold dict_get. simpl. by rewrite String.eqb_refl.
  - destruct k as [| | | |k| |]; try exact (IH Hnd Hin).
    rewrite dict_keys_cons in Hnd. apply NoDup_cons in Hnd as [Hnotin Hnd].
    unfold dict_get. simpl.
    destruct (String.eqb_spec k c) as [->|Hne]; simpl; [|by apply IH].
    exfalso. apply Hnotin. unfold dict_keys.
    apply list_elem_of_omap. by exists (PStr c, v).
Qed.

Lemma summary_amounts_in_cons c e rest :
  summary_amounts_in c (e :: rest)
  = match e !! "category" with
    | Some (PStr c') =>
        if String.eqb c' c then
          match amount_or_zero e with
          | Return f => f :: summary_amounts_in c rest
          | Raise _ => summary_amounts_in c rest
          end
        else summary_amounts_in c rest
    | _ => summary_amounts_in c rest
    end.
Proof.
  unfold summary_amounts_in. cbn [omap list_omap].
  destruct (e !! "category") as [[| | | |c'| |]|]; try done.
  destruct (String.eqb c' c); [|done]. by destruct (amount_or_zero e).
Qed.

(** The grouping loop of the summary, read one category at a time. *)
Lemma summary_categories_spec l : ∀ d d',
  summary_categories l d = Return d' →
  Forall category_is_text l →
  string_keyed d → NoDup (dict_keys d) →
  string_keyed d' ∧ NoDup (dict_keys d')
  ∧ ∀ c, dict_get c d'
         = match summary_amounts_in c l with
           | [] => dict_get c d
           | xs => Some (foldl PrimFloat.add (default 0%float (dict_get c d)) xs)
           end.
Proof.
  induction l as [|e rest IH]; intros d d' Hrun Htext Hd Hnd.
  - injection Hrun as <-. done.
  - apply Forall_cons in Htext as [[c' Hc'] Hrest].
    simpl in Hrun.
    destruct (amount_or_zero e) as [f|] eqn:Hf; [|done]. simpl in Hrun.
    rewrite Hc' in Hrun. simpl in Hrun.
    destruct (IH _ _ Hrun Hrest) as (Hd' & Hnd' & Hget).
    { by apply dict_add_keeps_string_keyed. }
    { by apply dict_keys_add_NoDup. }
    split; [done|]. split; [done|].
    intros c. rewrite Hget, summary_amounts_in_cons, Hc', Hf.
    rewrite dict_get_add by done.
    destruct (String.eqb c' c); [|done].
    by destruct (summary_amounts_in c rest).
Qed.

(** X14. With string categories in the Store, the rows GET /summary
    returns are one per category of the month: no category twice, a row
    for every category a record of the month has, and each row's amount
    the text of the sum, from the left onto 0.0, of the amounts of the
    month's records of that category, a falsy amount counting as 0. *)
Theorem summary_groups_by_category year_month w r :
  (get_summary year_month w).1 = Return r →
  Forall category_is_text (DATA w) →
  ∃ monthly,
    Kept (date_starts_with year_month) (DATA w) monthly
    ∧ NoDup (row_category <$> sr_categories r)
    ∧ (∀ row, row ∈ sr_categories r →
        ∃ c, row_category row = PStr c
          ∧ summary_amounts_in c monthly ≠ []
          ∧ row_amount row = float_str (sum_floats (summary_amounts_in c monthly)))
    ∧ (∀ e c, e ∈ monthly → e !! "category" = Some (PStr c) →
        ∃ row, row ∈ sr_categories r ∧ row_category row = PStr c).
Proof.
  intros (monthly & amounts & dict & Hm & Ha & Hd & ->)%get_summary_inv Htext.
  exists monthly. apply monthly_of_Kept in Hm. split; [done|].
  assert (Hmt : Forall category_is_text monthly).
  { apply Forall_forall. intros e He.
    apply (Kept_elem_of _ _ _ Hm) in He as [He _].
    rewrite Forall_forall in Htext. by apply Htext. }
  destruct (summary_categories_spec _ _ _ Hd Hmt) as (Hkeys & Hnd & Hget);
    [constructor|constructor|].
  cbn [sr_categories].
  assert (Hrows : ∀ row, row ∈ category_row_of (py_sum amounts) <$> sorted_reverse dict
            ↔ ∃ kv, kv ∈ dict ∧ row = category_row_of (py_sum amounts) kv).
  { intros row. rewrite list_elem_of_fmap. split.
    - intros (kv & -> & Hkv). exists kv. split; [|done].
      by rewrite sorted_reverse_perm in Hkv.
    - intros (kv & Hkv & ->). exists kv. split; [done|].
      by rewrite sorted_reverse_perm. }
  split; [|split].
  - rewrite <- list_fmap_compose.
    assert (Hfst : (row_category ∘ category_row_of (py_sum amounts))
                     <$> sorted_reverse dict = (sorted_reverse dict).*1).
    { by apply list_fmap_ext. }
    rewrite Hfst, sorted_reverse_perm.
    assert (Hk : dict.*1 = PStr <$> dict_keys dict).
    { clear -Hkeys. induction Hkeys as [|[k v] d' [k0 Hk] _ IH]; [done|].
      simpl in Hk. subst k. rewrite dict_keys_cons, !fmap_cons. by rewrite IH. }
    rewrite Hk. apply NoDup_fmap; [|done]. by intros ? ? [= ->].
  - intros row (kv & Hkv & ->)%Hrows. destruct kv as [k v].
    unfold string_keyed in Hkeys. rewrite Forall_forall in Hkeys.
    destruct (Hkeys _ Hkv) as [c Hc]. simpl in Hc. subst k.
    exists c. split; [done|].
    pose proof (dict_get_elem c dict v Hnd Hkv) as Hv.
    rewrite Hget in Hv. simpl in Hv.
    destruct (summary_amounts_in c monthly) as [|x xs] eqn:Hxs; [done|].
    injection Hv as <-. split; [done|]. done.
  - intros e c He Hc.
    assert (Hne : summary_amounts_in c monthly ≠ []).
    { clear -He Hc Hd. revert Hd. generalize (@nil (pyval * float)).
      induction monthly as [|e' rest IH]; intros d0 Hrun;
        [by apply elem_of_nil in He|].
      simpl in Hrun. destruct (amount_or_zero e') as [f|] eqn:Hf; [|done].
      simpl in Hrun.
      destruct (e' !! "category") as [k|] eqn:Hk; [|done].
      destruct (hashable k); [|done].
      rewrite summary_amounts_in_cons, Hk, Hf.
      apply elem_of_cons in He as [->|He].
      - rewrite Hc in Hk. injection Hk as <-. by rewrite String.eqb_refl.
      - specialize (IH He _ Hrun).
        destruct k; try done. by destruct (String.eqb _ _). }
    specialize (Hget c). simpl in Hget.
    destruct (summary_amounts_in c monthly) as [|x xs] eqn:Hxs; [done|].
    apply dict_get_Some in Hget.
    eexists. split; [apply Hrows; eexists; split; [exact Hget|done]|done].
Qed.

End SummaryRows.

(** ** The CSV export selects what GET /entries lists *)

Section ExportLaws.
Context {rt : PyRuntime}.

Local Abbreviation from_stage p l :=
  (match given p with
   | Some b => comprehension (date_ge b) l
   | None => Return l%list
   end).
Local Abbreviation to_stage p l :=
  (match given p with
   | Some b => comprehension (date_le b) l
   | None => Return l%list
   end).
Local Abbreviation category_stage p l :=
  (match given p with
   | Some c => comprehension (category_eq c) l
   | None => Return l%list
   end).

Lemma comprehension_cons test e rest l :
  comprehension test (e :: rest) = Return l →
  ∃ k tl, test e = Return k ∧ comprehension test rest = Return tl
    ∧ l = if k : bool then e :: tl else tl.
Proof.
  simpl. destruct (test e) as [k|]; [|done]. simpl.
  destruct (comprehension test rest) as [tl|]; [|done]. simpl.
  intros [= <-]. by exists k, tl.
Qed.

Lemma from_stage_cons p e rest l :
  from_stage p (e :: rest) = Return l →
  ∃ k tl, from_stage p rest = Return tl
    ∧ l = (if k : bool then e :: tl else tl)
    ∧ match given p with
      | Some b => date_cmp str_lt e b
      | None => Return false
      end = Return (negb k).
Proof.
  destruct (given p) as [b|].
  - intros (k & tl & Hk & Htl & ->)%comprehension_cons.
    exists k, tl. split; [done|]. split; [done|].
    unfold date_ge in Hk. unfold date_cmp.
    destruct (e !! "date") as [[| | | |d| |]|]; try done.
    injection Hk as <-. simpl. by rewrite negb_involutive.
  - intros [= <-]. by exists true, rest.
Qed.

Lemma to_stage_cons p e rest l :
  to_stage p (e :: rest) = Return l →
  ∃ k tl, to_stage p rest = Return tl
    ∧ l = (if k : bool then e :: tl else tl)
    ∧ match given p with
      | Some b => date_cmp str_gt e b
      | None => Return false
      end = Return (negb k).
Proof.
  destruct (given p) as [b|].
  - intros (k & tl & Hk & Htl & ->)%comprehension_cons.
    exists k, tl. split; [done|]. split; [done|].
    unfold date_le in Hk. unfold date_cmp.
    destruct (e !! "date") as [[| | | |d| |]|]; try done.
    injection Hk as <-. simpl. by rewrite negb_involutive.
  - intros [= <-]. by exists true, rest.
Qed.

Lemma category_stage_cons p (e : entry) rest l :
  category_stage p (e :: rest) = Return l →
  ∃ k tl, category_stage p rest = Return tl
    ∧ l = (if k : bool then e :: tl else tl)
    ∧ match given p with
      | Some c => negb (ne_str (default PNone (e !! "category")) c)
      | None => true
      end = k.
Proof.
  destruct (given p) as [c|].
  - intros (k & tl & Hk & Htl & ->)%comprehension_cons.
    exists k, tl. split; [done|]. split; [done|].
    unfold category_eq in Hk. destruct (e !! "category") as [v|]; [|done].
    by injection Hk as <-.
  - intros [= <-]. by exists true, rest.
Qed.

(** The three comprehensions of the export and the one loop of GET
    /entries take the same records. *)
Lemma export_filter_is_filter_loop date_from date_to category data : ∀ f1 f2 l,
  from_stage date_from data = Return f1 →
  to_stage date_to f1 = Return f2 →
  category_stage category f2 = Return l →
  filter_loop date_from date_to category data = Return l.
Proof.
  induction data as [|e rest IH]; intros f1 f2 l H1 H2 H3.
  - assert (f1 = []) as -> by (destruct (given date_from); simpl in H1; congruence).
    assert (f2 = []) as -> by (destruct (given date_to); simpl in H2; congruence).
    assert (l = []) as -> by (destruct (given category); simpl in H3; congruence).
    done.
  - apply from_stage_cons in H1 as (k1 & f1' & H1 & -> & Hfrom).
    cbn [filter_loop]. unfold keeps.
    change (mbind ?f ?m) with (outcome_bind _ _ f m). unfold outcome_bind at 1.
    unfold outcome_bind at 1. rewrite Hfrom.
    destruct k1; cbn [negb].
    + apply to_stage_cons in H2 as (k2 & f2' & H2 & -> & Hto).
      unfold outcome_bind at 1. rewrite Hto.
      destruct k2; cbn [negb].
      * apply category_stage_cons in H3 as (k3 & l' & H3 & -> & Hcat).
        rewrite (IH _ _ _ H1 H2 H3).
        destruct (given category); rewrite Hcat; done.
      * by rewrite (IH _ _ _ H1 H2 H3).
    + by rewrite (IH _ _ _ H1 H2 H3).
Qed.

(** X15. When the filtering of [export_entries_csv] goes through, the
    rows it hands to the CSV writer are exactly the records of the Store
    that satisfy every provided bound, in Store order: the list a
    GET /entries with the same parameters returns, whenever that
    returns. *)
Theorem export_selects_like_filter date_from date_to category w rows :
  export_filter date_from date_to category (DATA w) = Return rows →
  Kept (bounds_hold date_from date_to category) (DATA w) rows
  ∧ ∀ r, (filter_entries date_from date_to category w).1 = Return r →
         entries r = rows.
Proof.
  intros Hx.
  assert (Hloop : filter_loop date_from date_to category (DATA w) = Return rows).
  { unfold export_filter in Hx. simpl in Hx.
    destruct (from_stage date_from (DATA w)) as [f1|] eqn:H1; [|done]. simpl in Hx.
    destruct (to_stage date_to f1) as [f2|] eqn:H2; [|done]. simpl in Hx.
    by apply (export_filter_is_filter_loop _ _ _ _ f1 f2). }
  split; [by apply filter_loop_Kept|].
  intros r (t & cs & Hf & _)%filter_entries_inv. congruence.
Qed.

(** X16. The amount validator of the [Entry] model and the sums of GET
    /entries read an amount alike: what the sum adds the validator
    returns; what the sum passes over the validator turns into 0.0 (for
    [None] and the empty string) or refuses with [ValueError]; and the
    validator never raises a [TypeError]. *)
Theorem validate_amount_reads_like_the_sum (e : entry) v :
  e !! "amount" = Some v →
  (∀ f, amount_to_add e = Return (Some f) → validate_amount v = Return f)
  ∧ (amount_to_add e = Return None →
     validate_amount v = Return 0%float ∨ validate_amount v = Raise ValueError)
  ∧ (∀ x, amount_to_add e = Raise x → validate_amount v = Raise x)
  ∧ validate_amount v ≠ Raise TypeError.
Proof.
  intros Hv. unfold amount_to_add, validate_amount. rewrite Hv. simpl.
  destruct v as [|b|z|f|s|l|d]; simpl.
  - repeat split; try done. by left.
  - repeat split; try done; by intros ? [= <-].
  - unfold float_of_int. destruct (is_infinity _); repeat split; try done;
      by intros ? [= <-].
  - repeat split; try done; by intros ? [= <-].
  - destruct s as [|a s].
    + repeat split; try done. by left.
    + simpl. destruct (float_of_str (String a s)); repeat split; try done;
        try (by intros ? [= <-]). by right.
  - repeat split; try done. by right.
  - repeat split; try done. by right.
Qed.

End ExportLaws.

(** ** The Store across requests *)

Section StoreLaws.
Context {rt : PyRuntime}.

Lemma filter_entries_reads date_from date_to category w :
  (filter_entries date_from date_to category w).2 = w.
Proof.
  unfold filter_entries. rewrite run_bind.
  destruct (match given date_from with Some _ => _ | None => _ end); [done|].
  rewrite run_ret, run_bind.
  destruct (match given date_to with Some _ => _ | None => _ end); [done|].
  by rewrite run_ret, run_bind.
Qed.

Lemma get_summary_reads year_month w : (get_summary year_month w).2 = w.
Proof.
  unfold get_summary. rewrite run_bind.
  destruct (_ || _); [done|]. by rewrite run_ret, run_bind.
Qed.

Lemma prepared_complete batch : ∀ n,
  Forall (λ e, required_missing e = false) batch →
  Forall complete (prepared n batch).
Proof.
  induction batch as [|e rest IH]; intros n Hok; simpl; [constructor|].
  apply Forall_cons in Hok as [He Hrest].
  constructor; [by apply prepare_complete|by apply IH].
Qed.

Lemma create_entries_keeps_complete batch w :
  Forall complete (DATA w) → Forall complete (DATA (create_entries batch w).2).
Proof.
  intros Hw.
  destruct (first_invalid batch) as [Hall|(pre & bad & post & -> & Hpre & Hbad)].
  - rewrite (create_entries_ok batch w Hall). cbn [snd DATA]. unfold newest.
    apply Forall_drop, Forall_app. split; [done|by apply prepared_complete].
  - rewrite (create_entries_fail pre bad post w Hpre Hbad). cbn [snd DATA].
    apply Forall_app. split; [done|by apply prepared_complete].
Qed.

Lemma sample_complete n : Forall complete (seeded n examples).
Proof.
  revert n.
  assert (H : ∀ u x, x ∈ examples → complete (sample_entry u x)).
  { intros u x Hx. unfold examples in Hx.
    repeat (apply elem_of_cons in Hx as [->|Hx]);
      [..|by apply elem_of_nil in Hx];
      (split; [vm_compute; reflexivity|]);
      repeat split; unfold sample_entry;
      rewrite ?lookup_insert_eq, ?lookup_insert_ne by done; eauto. }
  generalize examples H. intros xs. induction xs as [|x rest IH]; intros Hxs n; simpl.
  - constructor.
  - constructor; [apply Hxs; left|apply IH; intros; apply Hxs; by right].
Qed.

Lemma serve_keeps_complete w r :
  Forall complete (DATA w) → Forall complete (DATA (serve w r)).
Proof.
  intros Hw. destruct r as [| batch | batch | file | df dt cat | ym | | confirm |];
    cbn [serve].
  - done.
  - by apply create_entries_keeps_complete.
  - by apply create_entries_keeps_complete.
  - unfold create_entries_csv. destruct (csv_DictReader file) as [payload|x].
    + by apply create_entries_keeps_complete.
    + done.
  - by rewrite filter_entries_reads.
  - by rewrite get_summary_reads.
  - rewrite seed_sample_run. cbn [snd DATA]. apply Forall_app. split; [done|].
    apply sample_complete.
  - destruct confirm; [constructor|done].
  - done.
Qed.

Lemma complete_fields (e : entry) :
  complete e →
  is_Some (e !! "date") ∧ is_Some (e !! "category") ∧ is_Some (e !! "amount").
Proof.
  intros (Hreq & _ & Hcat & _). unfold required_missing, py_not_get in Hreq.
  apply orb_false_elim in Hreq as [Hd Ha].
  split; [|split; [done|]].
  - destruct (e !! "date"); [eauto|done].
  - destruct (e !! "amount"); [eauto|done].
Qed.

Lemma in_month_no_KeyError year_month (e : entry) :
  is_Some (e !! "date") → in_month year_month e ≠ Raise KeyError.
Proof.
  intros [v Hv]. unfold in_month. rewrite Hv. by destruct v.
Qed.

Lemma monthly_of_no_KeyError year_month data :
  Forall complete data → monthly_of year_month data ≠ Raise KeyError.
Proof.
  induction 1 as [|e rest He _ IH]; simpl; [done|].
  apply complete_fields in He as (Hd & _).
  pose proof (in_month_no_KeyError year_month e Hd) as Hk.
  destruct (in_month year_month e) as [k|x]; simpl; [|congruence].
  destruct (monthly_of year_month rest) as [tl|x]; simpl; [done|congruence].
Qed.

Lemma amount_or_zero_no_KeyError e : amount_or_zero e ≠ Raise KeyError.
Proof.
  unfold amount_or_zero. intros H.
  apply py_float_raise in H as [H|[H|H]]; discriminate H.
Qed.

Lemma amounts_no_KeyError l : mapM amount_or_zero l ≠ Raise KeyError.
Proof.
  induction l as [|e rest IH]; simpl; [done|].
  pose proof (amount_or_zero_no_KeyError e) as He.
  destruct (amount_or_zero e) as [f|x]; simpl; [|congruence].
  destruct (mapM amount_or_zero rest) as [fs|x]; simpl; [done|congruence].
Qed.

Lemma summary_categories_no_KeyError l :
  Forall complete l → ∀ d, summary_categories l d ≠ Raise KeyError.
Proof.
  induction 1 as [|e rest He _ IH]; intros d; simpl; [done|].
  apply complete_fields in He as (_ & [c Hc] & _).
  pose proof (amount_or_zero_no_KeyError e) as Ha.
  destruct (amount_or_zero e) as [f|x]; simpl; [|congruence].
  rewrite Hc. destruct (hashable c); [apply IH|done].
Qed.

Lemma comprehension_complete test l :
  Forall complete l →
  (∀ e, complete e → test e ≠ Raise KeyError) →
  comprehension test l ≠ Raise KeyError
  ∧ ∀ kept, comprehension test l = Return kept → Forall complete kept.
Proof.
  intros Hl Htest. induction Hl as [|e rest He _ [IH1 IH2]]; simpl.
  - split; [done|]. intros kept [= <-]. constructor.
  - pose proof (Htest e He) as Hk.
    destruct (test e) as [k|x]; simpl; [|split; [congruence|done]].
    destruct (comprehension test rest) as [tl|x]; simpl; [|split; [congruence|done]].
    split; [done|]. intros kept [= <-].
    destruct k; [constructor; [done|]|]; by apply IH2.
Qed.

Lemma export_filter_no_KeyError date_from date_to category data :
  Forall complete data →
  export_filter date_from date_to category data ≠ Raise KeyError.
Proof.
  intros Hdata. unfold export_filter.
  assert (Hge : ∀ b e, complete e → date_ge b e ≠ Raise KeyError).
  { intros b e (Hd & _)%complete_fields. unfold date_ge.
    destruct Hd as [v ->]. by destruct v. }
  assert (Hle : ∀ b e, complete e → date_le b e ≠ Raise KeyError).
  { intros b e (Hd & _)%complete_fields. unfold date_le.
    destruct Hd as [v ->]. by destruct v. }
  assert (Hcat : ∀ c e, complete e → category_eq c e ≠ Raise KeyError).
  { intros c e (_ & Hc & _)%complete_fields. unfold category_eq.
    by destruct Hc as [v ->]. }
  assert (H1 : ∀ p test l, Forall complete l →
    (∀ b e, complete e → test b e ≠ Raise KeyError) →
    match given p with
    | Some b => comprehension (test b) l
    | None => Return l
    end ≠ Raise KeyError
    ∧ ∀ kept, match given p with
              | Some b => comprehension (test b) l
              | None => Return l
              end = Return kept → Forall complete kept).
  { intros p test l Hl Ht. destruct (given p) as [b|].
    - apply comprehension_complete; [done|]. apply Ht.
    - split; [done|]. by intros kept [= <-]. }
  destruct (H1 date_from date_ge data Hdata Hge) as [Hn1 Hk1].
  destruct (match given date_from with Some _ => _ | None => _ end) as [f1|x];
    simpl; [|congruence].
  destruct (H1 date_to date_le f1 (Hk1 f1 eq_refl) Hle) as [Hn2 Hk2].
  destruct (match given date_to with Some _ => _ | None => _ end) as [f2|x];
    simpl; [|congruence].
  by destruct (H1 category category_eq f2 (Hk2 f2 eq_refl) Hcat) as [Hn3 _].
Qed.

(** X17. The records the service stores keep their five fields. On a
    Store whose records all have an id, a category, a description and a
    truthy date and amount (an empty Store is one), any run of requests,
    answered or refused, leaves such a Store; on it, the subscripts
    [e["date"]] and [e["category"]] of GET /summary and of the export
    never raise a [KeyError]. *)
Theorem stored_records_keep_their_fields w rs :
  Forall complete (DATA w) →
  Forall complete (DATA (foldl serve w rs))
  ∧ (∀ year_month, (get_summary year_month (foldl serve w rs)).1 ≠ Raise KeyError)
  ∧ (∀ date_from date_to category,
       export_filter date_from date_to category (DATA (foldl serve w rs))
       ≠ Raise KeyError).
Proof.
  intros Hw.
  assert (Hinv : Forall complete (DATA (foldl serve w rs))).
  { revert w Hw. induction rs as [|r rs IH]; intros w Hw; simpl; [done|].
    by apply IH, serve_keeps_complete. }
  split; [done|]. split.
  - intros year_month.
    destruct (get_summary_cases year_month (foldl serve w rs)) as [[_ ->]|[_ ->]];
      [done|].
    pose proof (monthly_of_no_KeyError year_month _ Hinv) as Hm.
    destruct (monthly_of year_month _) as [monthly|x] eqn:Hmonthly;
      simpl; [|congruence].
    pose proof (amounts_no_KeyError monthly) as Ha.
    destruct (mapM amount_or_zero monthly) as [amounts|x]; simpl; [|congruence].
    assert (Hmc : Forall complete monthly).
    { apply monthly_of_Kept in Hmonthly. apply Forall_forall. intros e He.
      apply (Kept_elem_of _ _ _ Hmonthly) in He as [He _].
      by apply (proj1 (Forall_forall _ _) Hinv). }
    pose proof (summary_categories_no_KeyError monthly Hmc []) as Hc.
    destruct (summary_categories monthly []) as [d|x]; simpl; [done|congruence].
  - intros. by apply export_filter_no_KeyError.
Qed.

(** X18. A confirmed clear empties the Store and reports how many records
    it held, so a second one reports 0; afterwards the health check
    counts 0, a GET /entries with well-formed dates returns the empty
    summary with total [0.0], and a GET /summary for a well-shaped month
    returns no entries, the total [0] and no rows. A clear that is not
    confirmed is answered without an error and leaves the Store as it
    was. *)
Theorem clear_empties_the_store w :
  let w' := (clear_data true w).2 in
  (clear_data true w).1 = Return (Cleared (length (DATA w)))
  ∧ DATA w' = []
  ∧ (clear_data true w').1 = Return (Cleared 0)
  ∧ (health_check w').1 = Return 0%nat
  ∧ (∀ date_from date_to category,
       well_formed_date date_from → well_formed_date date_to →
       (filter_entries date_from date_to category w').1
       = Return (mkEntrySummary 0 (float_str 0%float) [] []))
  ∧ (∀ year_month, year_month_shaped year_month →
       (get_summary year_month w').1
       = Return (SummaryResponse year_month 0 "0" []))
  ∧ (∃ message, clear_data false w = (Return (ClearRefused message), w)).
Proof.
  cbn zeta. repeat split.
  - intros date_from date_to category Hfrom Hto.
    destruct (filter_entries_cases date_from date_to category (clear_data true w).2)
      as [[Hbad _]|[(_ & Hbad & _)|(_ & _ & ->)]].
    + by apply well_formed_not_malformed in Hbad.
    + by apply well_formed_not_malformed in Hbad.
    + done.
  - intros year_month Hshape.
    destruct (get_summary_cases year_month (clear_data true w).2)
      as [[Hbad _]|[_ ->]]; [done|]. done.
  - by eexists.
Qed.

End StoreLaws.

(** ** When the reads return *)


(** X20. GET /summary returns for a well-shaped month whenever every
    stored record has a string date, a category that can be a dict key and
    an amount [float] accepts. *)
Theorem summary_returns_on_summable_records {rt : PyRuntime} year_month w :
  year_month_shaped year_month →
  Forall summable (DATA w) →
  ∃ r, (get_summary year_month w).1 = Return r ∧ sr_year_month r = year_month.
Proof.
  intros [Hlen Hhyphen] Hwf.
  destruct (get_summary_returns year_month w Hlen Hhyphen Hwf) as [r Hr].
  exists r. split; [done|].
  by apply get_summary_inv in Hr as (monthly & amounts & d & _ & _ & _ & ->).
Qed.

(** ** The further properties on sample requests *)

Section Examples.
#[local] Existing Instance ref_runtime.


Lemma filter_inverted_range_is_empty_witness :
  let r := returned (filter_entries (Some "2023-03-01") (Some "2023-01-31") None
                       mixed_world).1 in
  provided (Some "2023-03-01") "2023-03-01"
  ∧ provided (Some "2023-01-31") "2023-01-31"
  ∧ ¬ lex_le "2023-03-01" "2023-01-31"
  ∧ (filter_entries (Some "2023-03-01") (Some "2023-01-31") None mixed_world).1
    = Return r
  ∧ r = mkEntrySummary 0 (float_str 0%float) [] [].
Proof.
  intros r.
  assert (H1 : provided (Some "2023-03-01") "2023-03-01") by (by split).
  assert (H2 : provided (Some "2023-01-31") "2023-01-31") by (by split).
  assert (H3 : ¬ lex_le "2023-03-01" "2023-01-31").
  { intros H. apply str_gt_false in H. vm_compute in H. discriminate H. }
  assert (H4 : (filter_entries (Some "2023-03-01") (Some "2023-01-31") None
                  mixed_world).1 = Return r).
  { vm_compute. reflexivity. }
  split; [exact H1|]. split; [exact H2|]. split; [exact H3|]. split; [exact H4|].
  exact (filter_inverted_range_is_empty _ _ _ _ _ _ _ H1 H2 H3 H4).
Defined.

Lemma filter_category_narrows_witness :
  let r_all := returned (filter_entries (Some "2023-01-20") None None mixed_world).1 in
  let r_c := returned (filter_entries (Some "2023-01-20") None (Some "食費")
                         mixed_world).1 in
  "食費" ≠ EmptyString
  ∧ (filter_entries (Some "2023-01-20") None None mixed_world).1 = Return r_all
  ∧ (filter_entries (Some "2023-01-20") None (Some "食費") mixed_world).1 = Return r_c
  ∧ Kept (λ e, e !! "category" = Some (PStr "食費")) (entries r_all) (entries r_c)
  ∧ sublist (entries r_c) (entries r_all)
  ∧ (total r_c ≤ total r_all)%nat.
Proof.
  intros r_all r_c.
  assert (H1 : "食費" ≠ EmptyString) by done.
  assert (H2 : (filter_entries (Some "2023-01-20") None None mixed_world).1
               = Return r_all).
  { vm_compute. reflexivity. }
  assert (H3 : (filter_entries (Some "2023-01-20") None (Some "食費") mixed_world).1
               = Return r_c).
  { vm_compute. reflexivity. }
  split; [exact H1|]. split; [exact H2|]. split; [exact H3|].
  exact (filter_category_narrows _ _ _ _ _ _ H1 H2 H3).
Defined.

Lemma filter_mapping_keys_witness :
  let r := returned (filter_entries None (Some "2023-02-28") None mixed_world).1 in
  (filter_entries None (Some "2023-02-28") None mixed_world).1 = Return r
  ∧ NoDup (categories r).*1
  ∧ (∀ c, c ∈ (categories r).*1
      ↔ ∃ e, e ∈ entries r ∧ category_value e = PStr c ∧ is_Some (parsed_amount e))
  ∧ (∀ c, provided None c →
      (categories r).*1 = [] ∨ (categories r).*1 = [c]).
Proof.
  intros r.
  assert (H : (filter_entries None (Some "2023-02-28") None mixed_world).1 = Return r).
  { vm_compute. reflexivity. }
  split; [exact H|].
  exact (filter_mapping_keys _ _ _ _ _ H).
Defined.

Lemma filter_fails_on_nontext_date_witness :
  well_formed_date (Some "2023-01-01")
  ∧ well_formed_date None
  ∧ (provided (Some "2023-01-01") "2023-01-01" ∨ provided None "2023-01-01")
  ∧ Exists (λ e, ∀ d, date_value e ≠ PStr d) (DATA nontext_world)
  ∧ (filter_entries (Some "2023-01-01") None None nontext_world).1 = Raise TypeError
  ∧ status_of (filter_entries (Some "2023-01-01") None None nontext_world).1 = 500.
Proof.
  assert (H1 : well_formed_date (Some "2023-01-01")).
  { intros s [[= <-] _]. vm_compute. reflexivity. }
  assert (H2 : well_formed_date None).
  { intros s [H _]. discriminate H. }
  assert (H3 : provided (Some "2023-01-01") "2023-01-01" ∨ provided None "2023-01-01").
  { left. by split. }
  assert (H4 : Exists (λ e, ∀ d, date_value e ≠ PStr d) (DATA nontext_world)).
  { apply Exists_cons_hd. intros d. vm_compute. discriminate. }
  split; [exact H1|]. split; [exact H2|]. split; [exact H3|]. split; [exact H4|].
  exact (filter_fails_on_nontext_date _ _ None _ _ H1 H2 H3 H4).
Defined.

Lemma summary_counts_the_month_witness :
  let w := (seed_sample fresh_world).2 in
  let r := summary_returned (get_summary "2023-02" w).1 in
  (get_summary "2023-02" w).1 = Return r
  ∧ sr_year_month r = "2023-02"
  ∧ ∃ monthly,
      Kept (date_starts_with "2023-02") (DATA w) monthly
      ∧ sr_total_entries r = length monthly
      ∧ ∀ e, e ∈ monthly ↔ e ∈ DATA w ∧ date_starts_with "2023-02" e.
Proof.
  intros w r.
  assert (H : (get_summary "2023-02" w).1 = Return r).
  { vm_compute. reflexivity. }
  split; [exact H|].
  exact (summary_counts_the_month _ _ _ H).
Defined.

Lemma summary_of_an_empty_month_witness :
  year_month_shaped "2024-05"
  ∧ Forall (λ e, ∃ d, e !! "date" = Some (PStr d)) (DATA january_world)
  ∧ (∀ e, e ∈ DATA january_world → ¬ date_starts_with "2024-05" e)
  ∧ (get_summary "2024-05" january_world).1
    = Return (SummaryResponse "2024-05" 0 "0" []).
Proof.
  assert (H1 : year_month_shaped "2024-05").
  { split; vm_compute; reflexivity. }
  assert (H2 : Forall (λ e, ∃ d, e !! "date" = Some (PStr d)) (DATA january_world)).
  { repeat (constructor; [by eexists|]). constructor. }
  assert (H3 : ∀ e, e ∈ DATA january_world → ¬ date_starts_with "2024-05" e).
  { intros e He [rest Hrest]. cbn [DATA january_world] in He.
    repeat (apply elem_of_cons in He as [->|He]);
      [..|by apply elem_of_nil in He]; vm_compute in Hrest; discriminate Hrest. }
  split; [exact H1|]. split; [exact H2|]. split; [exact H3|].
  exact (summary_of_an_empty_month _ _ H1 H2 H3).
Defined.

Lemma summary_fails_on_nontext_date_witness :
  year_month_shaped "2023-01"
  ∧ Forall (λ e, is_Some (e !! "date")) (DATA nontext_world)
  ∧ Exists date_not_text (DATA nontext_world)
  ∧ (get_summary "2023-01" nontext_world).1 = Raise AttributeError
  ∧ status_of (get_summary "2023-01" nontext_world).1 = 500.
Proof.
  assert (H1 : year_month_shaped "2023-01").
  { split; vm_compute; reflexivity. }
  assert (H2 : Forall (λ e, is_Some (e !! "date")) (DATA nontext_world)).
  { repeat (constructor; [by eexists|]). constructor. }
  assert (H3 : Exists date_not_text (DATA nontext_world)).
  { apply Exists_cons_hd. exists (PInt 20230115). split; [reflexivity|].
    intros d. discriminate. }
  split; [exact H1|]. split; [exact H2|]. split; [exact H3|].
  exact (summary_fails_on_nontext_date _ _ H1 H2 H3).
Defined.

Lemma summary_fails_on_refused_amount_witness :
  year_month_shaped "2023-01"
  ∧ Forall (λ e, ∃ d, e !! "date" = Some (PStr d)) (DATA january_world)
  ∧ Exists (λ e, date_starts_with "2023-01" e ∧ ∃ x, amount_or_zero e = Raise x)
      (DATA january_world)
  ∧ ∃ x, (get_summary "2023-01" january_world).1 = Raise x
      ∧ status_of (get_summary "2023-01" january_world).1 = 500.
Proof.
  assert (H1 : year_month_shaped "2023-01").
  { split; vm_compute; reflexivity. }
  assert (H2 : Forall (λ e, ∃ d, e !! "date" = Some (PStr d)) (DATA january_world)).
  { repeat (constructor; [by eexists|]). constructor. }
  assert (H3 : Exists (λ e, date_starts_with "2023-01" e
                            ∧ ∃ x, amount_or_zero e = Raise x) (DATA january_world)).
  { do 2 apply Exists_cons_tl. apply Exists_cons_hd. split.
    - exists "-01". reflexivity.
    - exists ValueError. vm_compute. reflexivity. }
  split; [exact H1|]. split; [exact H2|]. split; [exact H3|].
  exact (summary_fails_on_refused_amount _ _ H1 H2 H3).
Defined.

Lemma summary_groups_by_category_witness :
  let w := World (seeded 0 examples) 9 in
  let r := summary_returned (get_summary "2023-01" w).1 in
  (get_summary "2023-01" w).1 = Return r
  ∧ Forall category_is_text (DATA w)
  ∧ ∃ monthly,
      Kept (date_starts_with "2023-01") (DATA w) monthly
      ∧ NoDup (row_category <$> sr_categories r)
      ∧ (∀ row, row ∈ sr_categories r →
          ∃ c, row_category row = PStr c
            ∧ summary_amounts_in c monthly ≠ []
            ∧ row_amount row = float_str (sum_floats (summary_amounts_in c monthly)))
      ∧ (∀ e c, e ∈ monthly → e !! "category" = Some (PStr c) →
          ∃ row, row ∈ sr_categories r ∧ row_category row = PStr c).
Proof.
  intros w r.
  assert (H1 : (get_summary "2023-01" w).1 = Return r).
  { vm_compute. reflexivity. }
  assert (H2 : Forall category_is_text (DATA w)).
  { cbn [DATA w seeded examples]. repeat (constructor; [by eexists|]). constructor. }
  split; [exact H1|]. split; [exact H2|].
  exact (summary_groups_by_category _ _ _ H1 H2).
Defined.

Lemma export_selects_like_filter_witness :
  let w := World (seeded 0 examples) 9 in
  let rows := returned (filter_entries (Some "2023-02-01") None (Some "食費") w).1 in
  export_filter (Some "2023-02-01") None (Some "食費") (DATA w) = Return (entries rows)
  ∧ Kept (bounds_hold (Some "2023-02-01") None (Some "食費")) (DATA w) (entries rows)
  ∧ ∀ r, (filter_entries (Some "2023-02-01") None (Some "食費") w).1 = Return r →
         entries r = entries rows.
Proof.
  intros w rows.
  assert (H : export_filter (Some "2023-02-01") None (Some "食費") (DATA w)
              = Return (entries rows)).
  { vm_compute. reflexivity. }
  split; [exact H|].
  exact (export_selects_like_filter _ _ _ _ _ H).
Defined.

Lemma validate_amount_reads_like_the_sum_witness :
  nonnumeric_record !! "amount" = Some (PStr "abc")
  ∧ (∀ f, amount_to_add nonnumeric_record = Return (Some f) →
          validate_amount (PStr "abc") = Return f)
  ∧ (amount_to_add nonnumeric_record = Return None →
     validate_amount (PStr "abc") = Return 0%float
     ∨ validate_amount (PStr "abc") = Raise ValueError)
  ∧ (∀ x, amount_to_add nonnumeric_record = Raise x →
          validate_amount (PStr "abc") = Raise x)
  ∧ validate_amount (PStr "abc") ≠ Raise TypeError.
Proof.
  assert (H : nonnumeric_record !! "amount" = Some (PStr "abc")) by reflexivity.
  split; [exact H|].
  exact (validate_amount_reads_like_the_sum _ _ H).
Defined.

Lemma stored_records_keep_their_fields_witness :
  let rs := [PostSample; PostEntries [good_record; zero_amount_record];
             GetSummary "2023-01"; PostClear false] in
  Forall complete (DATA fresh_world)
  ∧ Forall complete (DATA (foldl serve fresh_world rs))
  ∧ (∀ year_month,
       (get_summary year_month (foldl serve fresh_world rs)).1 ≠ Raise KeyError)
  ∧ (∀ date_from date_to category,
       export_filter date_from date_to category (DATA (foldl serve fresh_world rs))
       ≠ Raise KeyError).
Proof.
  intros rs.
  assert (H : Forall complete (DATA fresh_world)) by constructor.
  split; [exact H|].
  exact (stored_records_keep_their_fields fresh_world rs H).
Defined.


Lemma summary_returns_on_summable_records_witness :
  let w := World [good_record; zero_amount_record] 0 in
  year_month_shaped "2023-01"
  ∧ Forall summable (DATA w)
  ∧ ∃ r, (get_summary "2023-01" w).1 = Return r ∧ sr_year_month r = "2023-01".
Proof.
  intros w.
  assert (H1 : year_month_shaped "2023-01").
  { split; vm_compute; reflexivity. }
  assert (H2 : Forall summable (DATA w)).
  { repeat (constructor;
      [split; [by eexists|]; split; [eexists; split; reflexivity|];
       eexists; reflexivity|]).
    constructor. }
  split; [exact H1|]. split; [exact H2|].
  exact (summary_returns_on_summable_records _ _ H1 H2).
Defined.

End Examples.
